(** * OpenStack modules: heat, os_keystone_service, os_keystone_endpoint

    A shallow embedding of the reconciliation logic of the three Ansible
    modules under [cloud/openstack/]:

    - [os_keystone_service.py]: [service_exists], [get_service],
      [ensure_service_exists], [ensure_service_absent], [main];
    - [os_keystone_endpoint.py]: [endpoint_match], [get_service],
      [endpoint_exists], [get_endpoint], [ensure_endpoint_exists],
      [ensure_endpoint_absent], [main];
    - [heat.py]: the module-level credential check and [stack_operation].

    Python code that talks to the remote cloud is embedded in a state and
    exception monad over a record [cloud] that holds the remote catalogue
    and the log of client calls issued so far. *)

From Stdlib Require Import List String Ascii Bool Arith Lia DecimalString.
Import ListNotations.
Local Open Scope string_scope.
Local Open Scope list_scope.

(* ================================================================== *)
(** * Python values, exceptions and results *)

(** Identifiers issued by the remote system.  The modules only store them,
    compare them with [==] and hand them back, so they are opaque tokens. *)
Definition ident := nat.

(** The exceptions the modules raise or let through.  All of them are
    subclasses of Python's [Exception]. *)
Inductive exn : Type :=
| KeyError (msg : string)
| ValueError (msg : string)
| OtherException (msg : string).

(** Values that end up in result dictionaries and [exit_json] arguments.
    [PyExcText e] stands for the text ["exception: %s" % e]. *)
Inductive pyvalue : Type :=
| PyNone
| PyBool (b : bool)
| PyStr (s : string)
| PyId (i : ident)
| PyExcText (e : exn).

(** A Python [dict] built from keyword arguments, in the order written. *)
Definition pydict := list (string * pyvalue).

(** [x == y] on values that are either a [str] or [None]. *)
Definition opt_string_eqb (x y : option string) : bool :=
  match x, y with
  | Some a, Some b => String.eqb a b
  | None, None => true
  | _, _ => false
  end.

(** ["%d" % n] and ["%s" % v]. *)
Definition fmt_d (n : nat) : string := NilEmpty.string_of_uint (Nat.to_uint n).

Definition fmt_s (v : option string) : string :=
  match v with
  | Some s => s
  | None => "None"
  end.

(** Outcome of a computation that may raise. *)
Inductive result (A : Type) : Type :=
| Ok (a : A)
| Raise (e : exn).
Arguments Ok {A} a.
Arguments Raise {A} e.

(* ================================================================== *)
(** * The remote catalogue and the client calls *)

Record service : Type := mkService {
  s_id : ident;
  s_name : string;
  s_type : string;
  s_description : string
}.

Record endpoint : Type := mkEndpoint {
  e_id : ident;
  e_service_id : ident;
  e_region : option string;
  e_publicurl : string;
  e_internalurl : option string;
  e_adminurl : option string
}.

(** One entry per call made on [cloud.services] or [cloud.endpoints]. *)
Inductive call : Type :=
| ServicesList
| ServicesCreate (name service_type description : string)
| ServicesDelete (id : ident)
| EndpointsList
| EndpointsCreate (service_id : ident) (region : option string)
    (publicurl : string) (internalurl adminurl : option string)
| EndpointsDelete (id : ident).

(** The object [cloud] the functions receive: the remote catalogue, the
    next identifier the remote will issue, and the calls issued so far in
    chronological order. *)
Record cloud : Type := mkCloud {
  services : list service;
  endpoints : list endpoint;
  next_id : ident;
  calls : list call
}.

Definition log (k : call) (c : cloud) : cloud :=
  mkCloud (services c) (endpoints c) (next_id c) (calls c ++ [k]).

(** ** The monad: a computation reads and updates the cloud and either
    returns a value or raises. *)
Definition M (A : Type) : Type := cloud -> result A * cloud.

Definition ret {A} (a : A) : M A := fun c => (Ok a, c).

Definition raise {A} (e : exn) : M A := fun c => (Raise e, c).

Definition bind {A B} (m : M A) (k : A -> M B) : M B :=
  fun c =>
    match m c with
    | (Ok a, c') => k a c'
    | (Raise e, c') => (Raise e, c')
    end.

Notation "x <- m ;; k" := (bind m (fun x => k))
  (at level 100, m at next level, right associativity).

(** [try: m  except KeyError: ...]: a [KeyError] is caught (the result is
    [None]), any other exception propagates. *)
Definition try_except_KeyError {A} (m : M A) : M (option A) :=
  fun c =>
    match m c with
    | (Ok a, c') => (Ok (Some a), c')
    | (Raise (KeyError _), c') => (Ok None, c')
    | (Raise e, c') => (Raise e, c')
    end.

(** ** Client calls.  The client library is outside the repository; the
    remote system is modelled as a catalogue: [list] returns it, [create]
    appends a resource carrying the attributes given and a fresh
    identifier and returns that resource, [delete] removes the resource
    with the identifier given. *)
Definition services_list : M (list service) :=
  fun c => (Ok (services c), log ServicesList c).

Definition services_create (name service_type description : string) : M service :=
  fun c =>
    let s := mkService (next_id c) name service_type description in
    (Ok s, mkCloud (services c ++ [s]) (endpoints c) (S (next_id c))
                   (calls c ++ [ServicesCreate name service_type description])).

Definition services_delete (id : ident) : M unit :=
  fun c =>
    (Ok tt, mkCloud (filter (fun x => negb (Nat.eqb (s_id x) id)) (services c))
                    (endpoints c) (next_id c)
                    (calls c ++ [ServicesDelete id])).

Definition endpoints_list : M (list endpoint) :=
  fun c => (Ok (endpoints c), log EndpointsList c).

Definition endpoints_create (service_id : ident) (region : option string)
    (publicurl : string) (internalurl adminurl : option string) : M endpoint :=
  fun c =>
    let e := mkEndpoint (next_id c) service_id region publicurl internalurl adminurl in
    (Ok e, mkCloud (services c) (endpoints c ++ [e]) (S (next_id c))
                   (calls c ++ [EndpointsCreate service_id region publicurl
                                                internalurl adminurl])).

Definition endpoints_delete (id : ident) : M unit :=
  fun c =>
    (Ok tt, mkCloud (services c)
                    (filter (fun x => negb (Nat.eqb (e_id x) id)) (endpoints c))
                    (next_id c)
                    (calls c ++ [EndpointsDelete id])).

(** The calls issued between two states of the cloud. *)
Definition calls_since (c c' : cloud) : list call :=
  skipn (List.length (calls c)) (calls c').

(** What a module reports to the host: [module.exit_json] or [module.fail_json] with
    its keyword arguments. *)
Inductive outcome : Type :=
| exit_json (kwargs : pydict)
| fail_json (kwargs : pydict).

(** The call of [shade.openstack_cloud] on the module parameters either returns a cloud or
    raises. *)
Definition cloud_constructor := result cloud.

(* ================================================================== *)
(** * os_keystone_service.py *)

Module os_keystone_service.

(** The list comprehension [[x for x in cloud.services.list() if x.name == service_name]]
    on a catalogue. *)
Definition services_named (service_name : string) (l : list service) : list service :=
  filter (fun x => String.eqb (s_name x) service_name) l.

Definition service_exists (service_name : string) : M bool :=
  l <- services_list ;;
  ret (existsb (fun n => String.eqb service_name n) (map s_name l)).

Definition get_service (service_name : string) : M service :=
  l <- services_list ;;
  let services := services_named service_name l in
  let count := List.length services in
  match services with
  | [] => raise (KeyError ("No service with name " ++ service_name))
  | [s] => ret s
  | _ => raise (ValueError (fmt_d count ++ " services with name " ++ service_name))
  end.

Definition get_service_id (service_name : string) : M ident :=
  s <- get_service service_name ;;
  ret (s_id s).

Definition ensure_service_exists (service_name service_type service_description : string)
    (check_mode : bool) : M (bool * option ident) :=
  found <- try_except_KeyError (get_service service_name) ;;
  match found with
  | Some service => ret (false, Some (s_id service))
  | None =>
      if check_mode then ret (true, None)
      else
        ks_service <- services_create service_name service_type service_description ;;
        ret (true, Some (s_id ks_service))
  end.

(** The result is [Some b] for [return b]; it is [None] where the function
    falls off its end and so returns Python's [None]. *)
Definition ensure_service_absent (service_name : string) (check_mode : bool)
    : M (option bool) :=
  ex <- service_exists service_name ;;
  if negb ex then ret (Some false)
  else if check_mode then ret (Some true)
  else
    service <- get_service service_name ;;
    _ <- services_delete (s_id service) ;;
    ret None.

Record params : Type := mkParams {
  name : string;
  service_type : string;
  description : string;
  state : string
}.

Definition pybool (b : option bool) : pyvalue :=
  match b with
  | Some b => PyBool b
  | None => PyNone
  end.

Definition pyid (i : option ident) : pyvalue :=
  match i with
  | Some i => PyId i
  | None => PyNone
  end.

(** The body of the [try] block of [main]: the values of [changed] and
    [_id] when it completes. *)
Definition main_try (p : params) (check_mode : bool) (openstack_cloud : cloud_constructor)
    : result (option bool * option ident) * option cloud :=
  match openstack_cloud with
  | Raise e => (Raise e, None)
  | Ok cloud =>
      let m : M (option bool * option ident) :=
        if String.eqb (state p) "present" then
          r <- ensure_service_exists (name p) (service_type p) (description p) check_mode ;;
          ret (Some (fst r), snd r)
        else if String.eqb (state p) "absent" then
          changed <- ensure_service_absent (name p) check_mode ;;
          ret (changed, None)
        else raise (ValueError ("Invalid state " ++ state p)) in
      let (r, c') := m cloud in (r, Some c')
  end.

(** [main] from the point where the module object exists: [p] is
    [module.params] and [check_mode] is [module.check_mode].  Which values
    these take in a run is settled by the construction of the object, see
    [ansible] below. *)
Definition main (HAS_SHADE : bool) (p : params) (check_mode : bool)
    (openstack_cloud : cloud_constructor) : outcome * option cloud :=
  if negb HAS_SHADE then
    (fail_json [("msg", PyStr "shade is required for this module")], None)
  else
    match main_try p check_mode openstack_cloud with
    | (Raise e, c) =>
        if check_mode then
          (exit_json [("changed", PyBool true); ("msg", PyExcText e)], c)
        else
          (fail_json [("msg", PyExcText e)], c)
    | (Ok (changed, _id), c) =>
        (exit_json [("changed", pybool changed); ("id", pyid _id)], c)
    end.

End os_keystone_service.

(* ================================================================== *)
(** * os_keystone_endpoint.py *)

Module os_keystone_endpoint.

Definition endpoint_match (endpoint : endpoint) (service_id : ident)
    (region : option string) (public_url : string)
    (internal_url admin_url : option string) : bool :=
  Nat.eqb (e_service_id endpoint) service_id &&
  opt_string_eqb (e_region endpoint) region &&
  String.eqb (e_publicurl endpoint) public_url &&
  opt_string_eqb (e_internalurl endpoint) internal_url &&
  opt_string_eqb (e_adminurl endpoint) admin_url.

Definition services_named (service_name : string) (l : list service) : list service :=
  filter (fun x => String.eqb (s_name x) service_name) l.

Definition get_service (service_name : string) : M service :=
  l <- services_list ;;
  let services := services_named service_name l in
  let count := List.length services in
  match services with
  | [] => raise (KeyError ("No keystone services with name " ++ service_name))
  | [s] => ret s
  | _ => raise (ValueError (fmt_d count ++ " services with name " ++ service_name))
  end.

(** The list comprehension shared by [endpoint_exists] and [get_endpoint]. *)
Definition endpoints_matching (service_id : ident) (region : option string)
    (public_url : string) (internal_url admin_url : option string)
    (l : list endpoint) : list endpoint :=
  filter (fun x => endpoint_match x service_id region public_url internal_url admin_url) l.

(** [any(endpoints)]: the elements are resource objects, which are truthy. *)
Definition endpoint_exists (service_id : ident) (region : option string)
    (public_url : string) (internal_url admin_url : option string) : M bool :=
  l <- endpoints_list ;;
  let endpoints := endpoints_matching service_id region public_url internal_url admin_url l in
  ret (existsb (fun _ => true) endpoints).

Definition descr (service_id : ident) (region : option string)
    (public_url : string) (internal_url admin_url : option string) : string :=
  "service id: " ++ fmt_d service_id ++ ", region: " ++ fmt_s region ++
  ", public_url: " ++ public_url ++ ", internal_url: " ++ fmt_s internal_url ++
  ", admin_url: " ++ fmt_s admin_url.

Definition get_endpoint (service_id : ident) (region : option string)
    (public_url : string) (internal_url admin_url : option string) : M endpoint :=
  l <- endpoints_list ;;
  let endpoints := endpoints_matching service_id region public_url internal_url admin_url l in
  let count := List.length endpoints in
  match endpoints with
  | [] => raise (KeyError ("No keystone endpoint with " ++
                           descr service_id region public_url internal_url admin_url))
  | [e] => ret e
  | _ => raise (ValueError (fmt_d count ++ " services with " ++
                            descr service_id region public_url internal_url admin_url))
  end.

Definition ensure_endpoint_exists (service_name : string) (region : option string)
    (public_url : string) (internal_url admin_url : option string)
    (check_mode : bool) : M (bool * option ident) :=
  svc <- get_service service_name ;;
  let service_id := s_id svc in
  found <- try_except_KeyError
             (get_endpoint service_id region public_url internal_url admin_url) ;;
  match found with
  | Some endpoint => ret (false, Some (e_id endpoint))
  | None =>
      if check_mode then ret (true, None)
      else
        ks_service <- endpoints_create service_id region public_url internal_url admin_url ;;
        ret (true, Some (e_id ks_service))
  end.

(** As for the service module, [None] is Python's [None], returned where the
    function falls off its end. *)
Definition ensure_endpoint_absent (service_name : string) (region : option string)
    (public_url : string) (internal_url admin_url : option string)
    (check_mode : bool) : M (option bool) :=
  svc <- get_service service_name ;;
  let service_id := s_id svc in
  ex <- endpoint_exists service_id region public_url internal_url admin_url ;;
  if negb ex then ret (Some false)
  else if check_mode then ret (Some true)
  else
    endpoint <- get_endpoint service_id region public_url internal_url admin_url ;;
    _ <- endpoints_delete (e_id endpoint) ;;
    ret None.

Record params : Type := mkParams {
  service_name : string;
  region : option string;
  public_url : string;
  internal_url : option string;
  admin_url : option string;
  state : string
}.

Definition main_try (p : params) (check_mode : bool) (openstack_cloud : cloud_constructor)
    : result (option bool * option ident) * option cloud :=
  match openstack_cloud with
  | Raise e => (Raise e, None)
  | Ok cloud =>
      let m : M (option bool * option ident) :=
        if String.eqb (state p) "present" then
          r <- ensure_endpoint_exists (service_name p) (region p) (public_url p)
                 (internal_url p) (admin_url p) check_mode ;;
          ret (Some (fst r), snd r)
        else if String.eqb (state p) "absent" then
          changed <- ensure_endpoint_absent (service_name p) (region p) (public_url p)
                       (internal_url p) (admin_url p) check_mode ;;
          ret (changed, None)
        else raise (ValueError ("Invalid state " ++ state p)) in
      let (r, c') := m cloud in (r, Some c')
  end.

(** [main] from the point where the module object exists: [p] is
    [module.params] and [check_mode] is [module.check_mode].  Which values
    these take in a run is settled by the construction of the object, see
    [ansible] below. *)
Definition main (HAS_SHADE : bool) (p : params) (check_mode : bool)
    (openstack_cloud : cloud_constructor) : outcome * option cloud :=
  if negb HAS_SHADE then
    (fail_json [("msg", PyStr "shade is required for this module")], None)
  else
    match main_try p check_mode openstack_cloud with
    | (Raise e, c) =>
        if check_mode then
          (exit_json [("changed", PyBool true); ("msg", PyExcText e)], c)
        else
          (fail_json [("msg", PyExcText e)], c)
    | (Ok (changed, _id), c) =>
        (exit_json [("changed", os_keystone_service.pybool changed);
                    ("id", os_keystone_service.pyid _id)], c)
    end.

End os_keystone_endpoint.

(* ================================================================== *)
(** * The keystone modules as the host runs them *)

Module ansible.

(** [main] starts with [module = AnsibleModule(argument_spec, **module_kwargs)]
    and reads [module.params] and [module.check_mode] from the object.  The
    class belongs to the host's framework, outside the repository.  Its
    constructor matters to [main] in two ways:
    - neither module passes [supports_check_mode], so a run the host asks
      for in check mode is ended by the constructor itself, with
      [exit_json(skipped=True, ...)]: [main] goes no further;
    - [state] is declared with [choices=['present', 'absent']], so any other
      value is ended by the constructor with [fail_json].
    The test for check mode comes first.  In every other run [main] goes on
    with the object, whose [check_mode] is what the host asked for. *)
Inductive constructed : Type :=
| exit_skipped
| fail_choice
| module_object (check_mode : bool).

Definition AnsibleModule (supports_check_mode : bool) (choices : list string)
    (state : string) (check_mode_asked : bool) : constructed :=
  if check_mode_asked && negb supports_check_mode then exit_skipped
  else if negb (existsb (String.eqb state) choices) then fail_choice
  else module_object check_mode_asked.

(** What the host gets back from a run. *)
Inductive run_result : Type :=
| skipped
| rejected
| finished (o : outcome) (c : option cloud).

(** os_keystone_service.py, run with the parameters [p]. *)
Definition service_module (HAS_SHADE : bool) (p : os_keystone_service.params)
    (check_mode_asked : bool) (openstack_cloud : cloud_constructor) : run_result :=
  match AnsibleModule false ["present"; "absent"] (os_keystone_service.state p)
          check_mode_asked with
  | exit_skipped => skipped
  | fail_choice => rejected
  | module_object check_mode =>
      let (o, c) := os_keystone_service.main HAS_SHADE p check_mode openstack_cloud in
      finished o c
  end.

(** os_keystone_endpoint.py, run with the parameters [p]. *)
Definition endpoint_module (HAS_SHADE : bool) (p : os_keystone_endpoint.params)
    (check_mode_asked : bool) (openstack_cloud : cloud_constructor) : run_result :=
  match AnsibleModule false ["present"; "absent"] (os_keystone_endpoint.state p)
          check_mode_asked with
  | exit_skipped => skipped
  | fail_choice => rejected
  | module_object check_mode =>
      let (o, c) := os_keystone_endpoint.main HAS_SHADE p check_mode openstack_cloud in
      finished o c
  end.

End ansible.

(* ================================================================== *)
(** * heat.py *)

Module heat.

(** ** Module level: credentials read from the environment *)

Definition environ := list (string * string).

(** [os.getenv(k)]: the value, or [None] when the variable is not set. *)
Fixpoint getenv (env : environ) (k : string) : option string :=
  match env with
  | [] => None
  | (k', v) :: env' => if String.eqb k' k then Some v else getenv env' k
  end.

(** What running the module file does, in order: lines printed on standard
    output, and the call of [main] with the module globals [username],
    [password], [tenant_name] and [auth_url], which [main] hands to
    [ksclient.Client] before it talks to heat. *)
Inductive action : Type :=
| Print (line : string)
| Main (username password tenant_name auth_url : option string).

Definition credentials_message : string :=
  "system environment variables are required for keystone authentication".

Definition import_message : string :=
  "failed=True msg='heatclient and keystoneclient is required for this module'".

(** [imports_ok] is false when importing heatclient or keystoneclient
    raises [ImportError]. *)
Definition run_module (imports_ok : bool) (env : environ) : list action :=
  let username := getenv env "OS_USERNAME" in
  let password := getenv env "OS_PASSWORD" in
  let tenant_name := getenv env "OS_TENANT_NAME" in
  let auth_url := getenv env "OS_AUTH_URL" in
  (if imports_ok then [] else [Print import_message]) ++
  (if existsb (opt_string_eqb (Some ""))
              [username; password; tenant_name; auth_url]
   then [Print credentials_message] else []) ++
  [Main username password tenant_name auth_url].

(** ** stack_operation *)

(** One answer of [heat.get(stack_name)]: a stack with its [status], or an
    exception of any kind (the [except:] clause is bare). *)
Inductive lookup : Type :=
| Found (status : string)
| LookupRaises.

Inductive event : Type :=
| Get (stack_name : string)
| Sleep (seconds : nat).

Definition is_sleep (e : event) : bool :=
  match e with Sleep _ => true | Get _ => false end.

Definition is_get (e : event) : bool :=
  match e with Get _ => true | Sleep _ => false end.

(** The [while] loop, run against the scripted answers [heat] of the remote.
    [existed] is the local list of the same name, [trace] the lookups and
    sleeps so far.  The loop has no bound of its own: where the script ends
    before a terminal answer the result is [None]. *)
Fixpoint stack_operation_loop (heat : list lookup) (stack_name operation : string)
    (existed : list string) (trace : list event) : option pydict * list event :=
  match heat with
  | [] => (None, trace)
  | LookupRaises :: _ =>
      if existsb (String.eqb "yes") existed then
        (Some [("changed", PyBool true); ("output", PyStr "Stack Deleted")],
         trace ++ [Get stack_name])
      else
        (Some [("changed", PyBool true); ("output", PyStr "Stack Not Found")],
         trace ++ [Get stack_name])
  | Found status :: heat' =>
      let existed := existed ++ ["yes"] in
      if String.eqb (operation ++ "_COMPLETE") status then
        (Some [("changed", PyBool true);
               ("output", PyStr ("Stack " ++ operation ++ " complete"))],
         trace ++ [Get stack_name])
      else if String.eqb (operation ++ "_FAILED") status then
        (Some [("failed", PyBool true);
               ("output", PyStr ("Stack " ++ operation ++ " failed"))],
         trace ++ [Get stack_name])
      else
        stack_operation_loop heat' stack_name operation existed
          (trace ++ [Get stack_name; Sleep 5])
  end.

Definition stack_operation (heat : list lookup) (stack_name operation : string)
    : option pydict * list event :=
  stack_operation_loop heat stack_name operation [] [].

(** ** Vocabulary for statements about the loop *)

(** A status that is neither [<operation>_COMPLETE] nor [<operation>_FAILED]. *)
Definition pending (operation status : string) : bool :=
  negb (String.eqb (operation ++ "_COMPLETE") status) &&
  negb (String.eqb (operation ++ "_FAILED") status).

(** The trace of one unsuccessful round per status of [pre]: a lookup
    followed by [time.sleep(5)]. *)
Definition rounds (stack_name : string) (pre : list string) : list event :=
  flat_map (fun _ => [Get stack_name; Sleep 5]) pre.

Definition sleeps (trace : list event) : list event := filter is_sleep trace.

Definition lookups (trace : list event) : nat := List.length (filter is_get trace).

Definition stack_complete (operation : string) : pydict :=
  [("changed", PyBool true); ("output", PyStr ("Stack " ++ operation ++ " complete"))].

Definition stack_failed (operation : string) : pydict :=
  [("failed", PyBool true); ("output", PyStr ("Stack " ++ operation ++ " failed"))].

Definition stack_deleted : pydict :=
  [("changed", PyBool true); ("output", PyStr "Stack Deleted")].

Definition stack_not_found : pydict :=
  [("changed", PyBool true); ("output", PyStr "Stack Not Found")].

End heat.

(* ================================================================== *)
(** * heat.py: main *)

Module heat_main.
Import heat.

(** [module.params] once [AnsibleModule] has accepted the arguments. *)
Record params : Type := mkParams {
  action : string;
  stack_name : string;
  template : string;
  template_parameters : list (string * string);
  tags : option string
}.

(** What [main] meets outside the file.  [imports_ok] is false when the
    guarded imports at the top of the file raised [ImportError], which leaves
    the name [ksclient] unbound.  [stack_policy_body_defined] and
    [disable_rollback_defined] say whether the star imports at the end of the
    file bind these two names, which the file itself never assigns.  The
    other fields are the answers of the file system and of the remote:
    [read_template] for [open(...).read()], [keystone_auth] for the
    construction of the keystone client and the two look-ups in its
    [auth_ref] (token id, tenant id), [heat_client] for the construction of
    the heat client, [stacks_create] and [stacks_delete] for the two calls on
    [heat.stacks], and [answers] for the successive calls of [heat.get]. *)
Record externals : Type := mkExternals {
  imports_ok : bool;
  stack_policy_body_defined : bool;
  disable_rollback_defined : bool;
  read_template : result string;
  keystone_auth : result (string * string);
  heat_client : result unit;
  stacks_create : result unit;
  stacks_delete : result unit;
  answers : list lookup
}.

(** The steps [main] takes, in order. *)
Inductive step : Type :=
| OpenTemplate (path : string)
| KeystoneClient (username password tenant_name auth_url : option string)
| HeatClient (endpoint token : string)
| StacksCreate (stack_name : string) (parameters : list (string * string))
    (template_body : string) (tags : option string)
| StacksDelete (stack_name : string)
| Poll (e : event).

(** How [main] ends: in [module.exit_json] with the result dictionary as
    keyword arguments, in [module.fail_json(msg=err)], with an exception that
    nothing catches, or still polling where the scripted answers end. *)
Inductive ending : Type :=
| exit_json_result (result : pydict)
| fail_json_msg (err : exn)
| uncaught (e : exn)
| still_polling.

Definition name_error (name : string) : exn :=
  OtherException ("global name '" ++ name ++ "' is not defined")%string.

(** The body of the [try] of the create branch up to the assignment of
    [operation]: the arguments of the call are evaluated first (a name that
    is not bound raises [NameError] and no call is made), then the call is
    made. *)
Definition submit_create (p : params) (x : externals) (template_body : string)
    : result unit * list step :=
  if negb (stack_policy_body_defined x) then (Raise (name_error "stack_policy_body"), [])
  else if negb (disable_rollback_defined x) then (Raise (name_error "disable_rollback"), [])
  else (stacks_create x,
        [StacksCreate (stack_name p) (template_parameters p) template_body (tags p)]).

(** [module.exit_json] on the dictionary [stack_operation] returned. *)
Definition report (polled : option pydict * list event) : ending * list step :=
  (match fst polled with
   | Some result => exit_json_result result
   | None => still_polling
   end,
   map Poll (snd polled)).

Definition then_steps (before : list step) (r : ending * list step) : ending * list step :=
  (fst r, before ++ snd r).

(** [main], with the module globals [username], [password], [tenant_name]
    and [auth_url] as arguments.  The two [if] statements on [action] are
    exclusive, so they are written as one cascade. *)
Definition main (username password tenant_name auth_url : option string)
    (p : params) (x : externals) : ending * list step :=
  then_steps [OpenTemplate (template p)]
    match read_template x with
    | Raise e => (uncaught e, [])
    | Ok template_body =>
        if negb (imports_ok x) then (uncaught (name_error "ksclient"), [])
        else
          then_steps [KeystoneClient username password tenant_name auth_url]
            match keystone_auth x with
            | Raise e => (uncaught e, [])
            | Ok (auth_token, tenant_id) =>
                let heat_url := (fmt_s auth_url ++ "/" ++ tenant_id)%string in
                then_steps [HeatClient heat_url auth_token]
                  match heat_client x with
                  | Raise e => (uncaught e, [])
                  | Ok _ =>
                      if String.eqb (action p) "create" then
                        let (submitted, steps) := submit_create p x template_body in
                        then_steps steps
                          match submitted with
                          | Raise err => (fail_json_msg err, [])
                          | Ok _ =>
                              report (stack_operation (answers x) (stack_name p) "CREATE")
                          end
                      else if String.eqb (action p) "delete" then
                        then_steps [StacksDelete (stack_name p)]
                          match stacks_delete x with
                          | Raise e => (uncaught e, [])
                          | Ok _ =>
                              report (stack_operation (answers x) (stack_name p) "DELETE")
                          end
                      else (exit_json_result [], [])
                  end
            end
    end.

(** Running the module file: the lines printed at module level, then
    [main] on the credentials read from the environment. *)
Definition run (env : environ) (p : params) (x : externals)
    : list string * (ending * list step) :=
  let printed :=
    flat_map (fun a => match a with Print line => [line] | Main _ _ _ _ => [] end)
             (run_module (imports_ok x) env) in
  (printed,
   main (getenv env "OS_USERNAME") (getenv env "OS_PASSWORD")
        (getenv env "OS_TENANT_NAME") (getenv env "OS_AUTH_URL") p x).

(** The steps up to the construction of the heat client, once the template
    was read and keystone answered with token [tok] and tenant [ten]. *)
Definition setup_steps (username password tenant_name auth_url : option string)
    (p : params) (tok ten : string) : list step :=
  [OpenTemplate (template p);
   KeystoneClient username password tenant_name auth_url;
   HeatClient (fmt_s auth_url ++ "/" ++ ten)%string tok].

Definition is_poll (s : step) : bool :=
  match s with Poll _ => true | _ => false end.

Definition is_submission (s : step) : bool :=
  match s with StacksCreate _ _ _ _ | StacksDelete _ => true | _ => false end.

(** The steps that involve heat: the construction of its client, the
    submissions and the polls. *)
Definition is_heat_step (s : step) : bool :=
  match s with OpenTemplate _ | KeystoneClient _ _ _ _ => false | _ => true end.

End heat_main.

(* ================================================================== *)
(** * Vocabulary for statements about the calls of a run *)

Definition is_list_call (k : call) : bool :=
  match k with
  | ServicesList | EndpointsList => true
  | _ => false
  end.

(** The create and delete calls among [ks]. *)
Definition mutations (ks : list call) : list call :=
  filter (fun k => negb (is_list_call k)) ks.

(** [c'] is [c] with list calls logged and nothing else changed. *)
Definition read_only (c c' : cloud) : Prop :=
  services c' = services c /\ endpoints c' = endpoints c /\
  next_id c' = next_id c /\
  exists ks, calls c' = calls c ++ ks /\ forallb is_list_call ks = true.

(** An answer of the remote that ends the polling loop for [operation]: a
    lookup that raises, or a status [<operation>_COMPLETE] or
    [<operation>_FAILED]. *)
Definition terminal (operation : string) (a : heat.lookup) : bool :=
  match a with
  | heat.LookupRaises => true
  | heat.Found status => negb (heat.pending operation status)
  end.

(** What the loop returns on a script made of the non-terminal statuses
    [pre] followed by [rest]. *)
Definition poll_outcome (stack_name operation : string) (pre : list string)
    (rest : list heat.lookup) : option pydict * list heat.event :=
  match rest with
  | [] => (None, heat.rounds stack_name pre)
  | heat.LookupRaises :: _ =>
      (Some (match pre with [] => heat.stack_not_found | _ => heat.stack_deleted end),
       heat.rounds stack_name pre ++ [heat.Get stack_name])
  | heat.Found status :: _ =>
      (Some (if String.eqb (operation ++ "_COMPLETE") status
             then heat.stack_complete operation else heat.stack_failed operation),
       heat.rounds stack_name pre ++ [heat.Get stack_name])
  end.

(** No service of the catalogue carries the identifier the remote will
    issue next. *)
Definition fresh_service_id (c : cloud) : Prop :=
  Forall (fun x => s_id x <> next_id c) (services c).

Definition fresh_endpoint_id (c : cloud) : Prop :=
  Forall (fun x => e_id x <> next_id c) (endpoints c).

(* ================================================================== *)
(** * Sample catalogues *)

Module samples.

Definition glance : service := mkService 1 "glance" "image" "Glance image service".
Definition glance' : service := mkService 2 "glance" "image" "Glance image service".
Definition nova : service := mkService 3 "nova" "compute" "Not provided".

Definition endpoint_aw1 (id : ident) (service_id : ident) : endpoint :=
  mkEndpoint id service_id (Some "aw1") "https://glance.aw1.bigcompany.com/"
    (Some "http://glance-aw1.internal:9292/") (Some "https://glance.aw1.bigcompany.com/").

(** Nothing registered yet. *)
Definition empty : cloud := mkCloud [] [] 1 [].

(** A consistent catalogue: one service of each name, one endpoint. *)
Definition single : cloud := mkCloud [glance; nova] [endpoint_aw1 4 1] 5 [].

(** An inconsistent catalogue: two services named glance, and two endpoints
    of nova with the same attributes. *)
Definition twice : cloud :=
  mkCloud [glance; glance'; nova] [endpoint_aw1 4 3; endpoint_aw1 5 3] 6 [].

Definition glance_present : os_keystone_service.params :=
  os_keystone_service.mkParams "glance" "image" "Glance image service" "present".

Definition glance_absent : os_keystone_service.params :=
  os_keystone_service.mkParams "glance" "image" "Glance image service" "absent".

Definition swift_endpoint_present : os_keystone_endpoint.params :=
  os_keystone_endpoint.mkParams "swift" (Some "aw1") "https://swift.aw1.bigcompany.com/"
    None None "present".

(** Credentials with an empty user name. *)
Definition env_empty_username : heat.environ :=
  [("OS_USERNAME", ""); ("OS_PASSWORD", "secret"); ("OS_TENANT_NAME", "demo");
   ("OS_AUTH_URL", "http://keystone:5000/v2.0")].

End samples.

(* ================================================================== *)
(** * Sample runs of the heat module *)

Module heat_samples.
Import heat heat_main.

Definition create_stack : params :=
  mkParams "create" "ansible-heat" "files/heat-example.json"
    [("KeyName", "justina"); ("InstanceType", "m1.small")] None.

Definition delete_stack : params :=
  mkParams "delete" "ansible-heat" "files/heat-example.json" [] None.

(** Everything outside the file answers; the two names of the create call
    are bound. *)
Definition answering (answers : list lookup) : externals :=
  mkExternals true true true (Ok "{}") (Ok ("token", "tenant")) (Ok tt)
    (Ok tt) (Ok tt) answers.

(** As [answering], with [stack_policy_body] and [disable_rollback] bound
    by nothing. *)
Definition unbound_names (answers : list lookup) : externals :=
  mkExternals true false false (Ok "{}") (Ok ("token", "tenant")) (Ok tt)
    (Ok tt) (Ok tt) answers.

(** As [answering], with a remote that rejects both submissions. *)
Definition rejecting : externals :=
  mkExternals true true true (Ok "{}") (Ok ("token", "tenant")) (Ok tt)
    (Raise (OtherException "HTTPBadRequest")) (Raise (OtherException "HTTPNotFound")) [].

End heat_samples.

(* ================================================================== *)
(** * Facts about the embedding *)

(** ** Python equality *)

Lemma opt_string_eqb_eq (x y : option string) :
  opt_string_eqb x y = true <-> x = y.
Proof.
  destruct x as [a|], y as [b|]; simpl; try (split; congruence).
  rewrite String.eqb_eq. split; congruence.
Qed.

(** ** Calls issued between two states of the cloud *)

Lemma skipn_length_app (A : Type) (l k : list A) : skipn (List.length l) (l ++ k) = k.
Proof. induction l as [|a l IH]; simpl; auto. Qed.

Lemma calls_since_log1 (c : cloud) (k : call) : calls_since c (log k c) = [k].
Proof. unfold calls_since, log; simpl. apply skipn_length_app. Qed.

(** ** Lists with zero, one or several elements *)

Lemma two_or_more (A : Type) (l : list A) :
  2 <= List.length l -> exists a b k, l = a :: b :: k.
Proof.
  destruct l as [|a [|b k]]; simpl; intros H; try lia.
  exists a, b, k; reflexivity.
Qed.

Lemma existsb_true_nonempty (A : Type) (l : list A) :
  existsb (fun _ => true) l = negb (match l with [] => true | _ => false end).
Proof. destruct l; reflexivity. Qed.

(** ** os_keystone_service: lookups *)

Module service_facts.
Import os_keystone_service.

Lemma get_service_none (n : string) (c : cloud) :
  services_named n (services c) = [] ->
  get_service n c = (Raise (KeyError ("No service with name " ++ n)), log ServicesList c).
Proof.
  intros H. unfold get_service, bind, services_list. rewrite H. reflexivity.
Qed.

Lemma get_service_one (n : string) (c : cloud) (s : service) :
  services_named n (services c) = [s] ->
  get_service n c = (Ok s, log ServicesList c).
Proof.
  intros H. unfold get_service, bind, services_list. rewrite H. reflexivity.
Qed.

Lemma get_service_many (n : string) (c : cloud) :
  2 <= List.length (services_named n (services c)) ->
  get_service n c =
    (Raise (ValueError (fmt_d (List.length (services_named n (services c))) ++
                        " services with name " ++ n)),
     log ServicesList c).
Proof.
  intros H. destruct (two_or_more _ _ H) as (a & b & k & E).
  unfold get_service, bind, services_list. rewrite E. reflexivity.
Qed.

(** [service_name in [x.name for x in ...]] holds exactly when the list of
    services of that name is not empty. *)
Lemma name_in_names (n : string) (l : list service) :
  existsb (fun m => String.eqb n m) (map s_name l) =
  negb (match services_named n l with [] => true | _ => false end).
Proof.
  induction l as [|x l IH]; simpl; auto.
  rewrite (String.eqb_sym n (s_name x)).
  destruct (String.eqb (s_name x) n); simpl; auto.
Qed.

Lemma service_exists_run (n : string) (c : cloud) :
  service_exists n c =
    (Ok (negb (match services_named n (services c) with [] => true | _ => false end)),
     log ServicesList c).
Proof.
  unfold service_exists, bind, services_list, ret. rewrite name_in_names. reflexivity.
Qed.

Lemma services_named_In (n : string) (l : list service) (x : service) :
  In x (services_named n l) <-> In x l /\ s_name x = n.
Proof.
  unfold services_named. rewrite filter_In, String.eqb_eq. tauto.
Qed.

(** *** Zero matches *)

Lemma ensure_service_absent_none (n : string) (cm : bool) (c : cloud) :
  services_named n (services c) = [] ->
  ensure_service_absent n cm c = (Ok (Some false), log ServicesList c).
Proof.
  intros H. unfold ensure_service_absent, bind.
  rewrite service_exists_run, H. reflexivity.
Qed.

(** *** One match *)


Lemma ensure_service_absent_one_delete (n : string) (c : cloud) (s : service) :
  services_named n (services c) = [s] ->
  ensure_service_absent n false c =
    (Ok None,
     mkCloud (filter (fun x => negb (Nat.eqb (s_id x) (s_id s))) (services c))
             (endpoints c) (next_id c)
             (calls c ++ [ServicesList; ServicesList; ServicesDelete (s_id s)])).
Proof.
  intros H. unfold ensure_service_absent, bind.
  rewrite service_exists_run, H. simpl.
  rewrite (get_service_one n (log ServicesList c) s) by exact H.
  unfold services_delete, ret, log; simpl. rewrite <- !app_assoc. reflexivity.
Qed.

(** *** The present path *)

Lemma ensure_service_exists_none_create (n ty d : string) (c : cloud) :
  services_named n (services c) = [] ->
  ensure_service_exists n ty d false c
    = (Ok (true, Some (next_id c)),
       mkCloud (services c ++ [mkService (next_id c) n ty d]) (endpoints c)
               (S (next_id c)) (calls c ++ [ServicesList; ServicesCreate n ty d])).
Proof.
  intros H. unfold ensure_service_exists, bind, try_except_KeyError.
  rewrite get_service_none by exact H.
  unfold services_create, ret, log; simpl. rewrite <- app_assoc. reflexivity.
Qed.

Lemma ensure_service_exists_none_check (n ty d : string) (c : cloud) :
  services_named n (services c) = [] ->
  ensure_service_exists n ty d true c = (Ok (true, None), log ServicesList c).
Proof.
  intros H. unfold ensure_service_exists, bind, try_except_KeyError.
  rewrite get_service_none by exact H. reflexivity.
Qed.

Lemma ensure_service_exists_one (n ty d : string) (cm : bool) (c : cloud) (s : service) :
  services_named n (services c) = [s] ->
  ensure_service_exists n ty d cm c = (Ok (false, Some (s_id s)), log ServicesList c).
Proof.
  intros H. unfold ensure_service_exists, bind, try_except_KeyError.
  rewrite (get_service_one n c s H). reflexivity.
Qed.

Lemma ensure_service_exists_many (n ty d : string) (cm : bool) (c : cloud) :
  2 <= List.length (services_named n (services c)) ->
  exists msg,
    ensure_service_exists n ty d cm c = (Raise (ValueError msg), log ServicesList c).
Proof.
  intros H. eexists. unfold ensure_service_exists, bind, try_except_KeyError.
  rewrite get_service_many by exact H. reflexivity.
Qed.

(** *** The absent path with several matches *)

Lemma ensure_service_absent_many_check (n : string) (c : cloud) :
  2 <= List.length (services_named n (services c)) ->
  ensure_service_absent n true c = (Ok (Some true), log ServicesList c).
Proof.
  intros H. destruct (two_or_more _ _ H) as (a & b & k & E).
  unfold ensure_service_absent, bind. rewrite service_exists_run, E. reflexivity.
Qed.

Lemma ensure_service_absent_many_delete (n : string) (c : cloud) :
  2 <= List.length (services_named n (services c)) ->
  exists msg,
    ensure_service_absent n false c
      = (Raise (ValueError msg), log ServicesList (log ServicesList c)).
Proof.
  intros H. destruct (two_or_more _ _ H) as (a & b & k & E).
  eexists. unfold ensure_service_absent, bind.
  rewrite service_exists_run, E. cbn [negb].
  rewrite get_service_many by exact H. reflexivity.
Qed.

(** *** A resource just created is the one match of its own descriptor *)

Lemma services_named_after_create (c : cloud) (n ty d : string) :
  services_named n (services c) = [] ->
  services_named n (services c ++ [mkService (next_id c) n ty d])
    = [mkService (next_id c) n ty d].
Proof.
  intros H. unfold services_named in *.
  rewrite filter_app, H. simpl. rewrite String.eqb_refl. reflexivity.
Qed.

End service_facts.

(** ** os_keystone_endpoint: lookups *)

Module endpoint_facts.
Import os_keystone_endpoint.

Lemma endpoint_match_iff (x : endpoint) (sid : ident) (r : option string)
    (pu : string) (iu au : option string) :
  endpoint_match x sid r pu iu au = true <->
  e_service_id x = sid /\ e_region x = r /\ e_publicurl x = pu /\
  e_internalurl x = iu /\ e_adminurl x = au.
Proof.
  unfold endpoint_match.
  rewrite !andb_true_iff, Nat.eqb_eq, String.eqb_eq, !opt_string_eqb_eq. tauto.
Qed.

Lemma resolve_service_none (n : string) (c : cloud) :
  services_named n (services c) = [] ->
  get_service n c =
    (Raise (KeyError ("No keystone services with name " ++ n)), log ServicesList c).
Proof.
  intros H. unfold get_service, bind, services_list. rewrite H. reflexivity.
Qed.

Lemma resolve_service_one (n : string) (c : cloud) (s : service) :
  services_named n (services c) = [s] ->
  get_service n c = (Ok s, log ServicesList c).
Proof.
  intros H. unfold get_service, bind, services_list. rewrite H. reflexivity.
Qed.

Lemma resolve_service_many (n : string) (c : cloud) :
  2 <= List.length (services_named n (services c)) ->
  get_service n c =
    (Raise (ValueError (fmt_d (List.length (services_named n (services c))) ++
                        " services with name " ++ n)),
     log ServicesList c).
Proof.
  intros H. destruct (two_or_more _ _ H) as (a & b & k & E).
  unfold get_service, bind, services_list. rewrite E. reflexivity.
Qed.

Section Descriptor.

Variables (sid : ident) (r : option string) (pu : string) (iu au : option string).

Lemma get_endpoint_none (c : cloud) :
  endpoints_matching sid r pu iu au (endpoints c) = [] ->
  get_endpoint sid r pu iu au c =
    (Raise (KeyError ("No keystone endpoint with " ++ descr sid r pu iu au)),
     log EndpointsList c).
Proof.
  intros H. unfold get_endpoint, bind, endpoints_list. rewrite H. reflexivity.
Qed.

Lemma get_endpoint_one (c : cloud) (e : endpoint) :
  endpoints_matching sid r pu iu au (endpoints c) = [e] ->
  get_endpoint sid r pu iu au c = (Ok e, log EndpointsList c).
Proof.
  intros H. unfold get_endpoint, bind, endpoints_list. rewrite H. reflexivity.
Qed.

Lemma get_endpoint_many (c : cloud) :
  2 <= List.length (endpoints_matching sid r pu iu au (endpoints c)) ->
  get_endpoint sid r pu iu au c =
    (Raise (ValueError
              (fmt_d (List.length (endpoints_matching sid r pu iu au (endpoints c))) ++
               " services with " ++ descr sid r pu iu au)),
     log EndpointsList c).
Proof.
  intros H. destruct (two_or_more _ _ H) as (a & b & k & E).
  unfold get_endpoint, bind, endpoints_list. rewrite E. reflexivity.
Qed.

Lemma endpoint_exists_run (c : cloud) :
  endpoint_exists sid r pu iu au c =
    (Ok (negb (match endpoints_matching sid r pu iu au (endpoints c) with
               | [] => true
               | _ => false
               end)),
     log EndpointsList c).
Proof.
  unfold endpoint_exists, bind, endpoints_list, ret.
  rewrite existsb_true_nonempty. reflexivity.
Qed.

(** *** Zero matches *)

Lemma ensure_endpoint_absent_none (n : string) (cm : bool) (c : cloud) (svc : service) :
  services_named n (services c) = [svc] ->
  s_id svc = sid ->
  endpoints_matching sid r pu iu au (endpoints c) = [] ->
  ensure_endpoint_absent n r pu iu au cm c =
    (Ok (Some false), log EndpointsList (log ServicesList c)).
Proof.
  intros Hs Hid He. unfold ensure_endpoint_absent, bind.
  rewrite (resolve_service_one n c svc Hs), Hid, endpoint_exists_run.
  simpl. rewrite He. reflexivity.
Qed.

(** *** One match *)

Lemma ensure_endpoint_absent_one_check (n : string) (c : cloud) (svc : service)
    (e : endpoint) :
  services_named n (services c) = [svc] ->
  s_id svc = sid ->
  endpoints_matching sid r pu iu au (endpoints c) = [e] ->
  ensure_endpoint_absent n r pu iu au true c =
    (Ok (Some true), log EndpointsList (log ServicesList c)).
Proof.
  intros Hs Hid He. unfold ensure_endpoint_absent, bind.
  rewrite (resolve_service_one n c svc Hs), Hid, endpoint_exists_run.
  simpl. rewrite He. reflexivity.
Qed.

Lemma ensure_endpoint_absent_one_delete (n : string) (c : cloud) (svc : service)
    (e : endpoint) :
  services_named n (services c) = [svc] ->
  s_id svc = sid ->
  endpoints_matching sid r pu iu au (endpoints c) = [e] ->
  ensure_endpoint_absent n r pu iu au false c =
    (Ok None,
     mkCloud (services c)
             (filter (fun x => negb (Nat.eqb (e_id x) (e_id e))) (endpoints c))
             (next_id c)
             (calls c ++ [ServicesList; EndpointsList; EndpointsList;
                          EndpointsDelete (e_id e)])).
Proof.
  intros Hs Hid He. unfold ensure_endpoint_absent, bind.
  rewrite (resolve_service_one n c svc Hs), Hid, endpoint_exists_run.
  simpl. rewrite He. simpl.
  rewrite (get_endpoint_one (log EndpointsList (log ServicesList c)) e) by exact He.
  unfold endpoints_delete, ret, log; simpl. rewrite <- !app_assoc. reflexivity.
Qed.

(** *** The present path *)

Lemma ensure_endpoint_exists_none_create (n : string) (c : cloud) (svc : service) :
  services_named n (services c) = [svc] ->
  s_id svc = sid ->
  endpoints_matching sid r pu iu au (endpoints c) = [] ->
  ensure_endpoint_exists n r pu iu au false c
    = (Ok (true, Some (next_id c)),
       mkCloud (services c) (endpoints c ++ [mkEndpoint (next_id c) sid r pu iu au])
               (S (next_id c))
               (calls c ++ [ServicesList; EndpointsList;
                            EndpointsCreate sid r pu iu au])).
Proof.
  intros Hs Hid He. unfold ensure_endpoint_exists, bind, try_except_KeyError.
  rewrite (resolve_service_one n c svc Hs), Hid.
  rewrite get_endpoint_none by exact He.
  unfold endpoints_create, ret, log; simpl. rewrite <- !app_assoc. reflexivity.
Qed.

Lemma ensure_endpoint_exists_none_check (n : string) (c : cloud) (svc : service) :
  services_named n (services c) = [svc] ->
  s_id svc = sid ->
  endpoints_matching sid r pu iu au (endpoints c) = [] ->
  ensure_endpoint_exists n r pu iu au true c
    = (Ok (true, None), log EndpointsList (log ServicesList c)).
Proof.
  intros Hs Hid He. unfold ensure_endpoint_exists, bind, try_except_KeyError.
  rewrite (resolve_service_one n c svc Hs), Hid.
  rewrite get_endpoint_none by exact He. reflexivity.
Qed.

Lemma ensure_endpoint_exists_one (n : string) (cm : bool) (c : cloud) (svc : service)
    (e : endpoint) :
  services_named n (services c) = [svc] ->
  s_id svc = sid ->
  endpoints_matching sid r pu iu au (endpoints c) = [e] ->
  ensure_endpoint_exists n r pu iu au cm c
    = (Ok (false, Some (e_id e)), log EndpointsList (log ServicesList c)).
Proof.
  intros Hs Hid He. unfold ensure_endpoint_exists, bind, try_except_KeyError.
  rewrite (resolve_service_one n c svc Hs), Hid.
  rewrite (get_endpoint_one (log ServicesList c) e) by exact He. reflexivity.
Qed.

Lemma ensure_endpoint_exists_many (n : string) (cm : bool) (c : cloud) (svc : service) :
  services_named n (services c) = [svc] ->
  s_id svc = sid ->
  2 <= List.length (endpoints_matching sid r pu iu au (endpoints c)) ->
  exists msg,
    ensure_endpoint_exists n r pu iu au cm c
      = (Raise (ValueError msg), log EndpointsList (log ServicesList c)).
Proof.
  intros Hs Hid He. eexists. unfold ensure_endpoint_exists, bind, try_except_KeyError.
  rewrite (resolve_service_one n c svc Hs), Hid.
  rewrite get_endpoint_many by exact He. reflexivity.
Qed.

(** *** The absent path with several matches *)

Lemma ensure_endpoint_absent_many_check (n : string) (c : cloud) (svc : service) :
  services_named n (services c) = [svc] ->
  s_id svc = sid ->
  2 <= List.length (endpoints_matching sid r pu iu au (endpoints c)) ->
  ensure_endpoint_absent n r pu iu au true c
    = (Ok (Some true), log EndpointsList (log ServicesList c)).
Proof.
  intros Hs Hid He. destruct (two_or_more _ _ He) as (a & b & k & E).
  unfold ensure_endpoint_absent, bind.
  rewrite (resolve_service_one n c svc Hs), Hid, endpoint_exists_run.
  cbn [endpoints log]. rewrite E. reflexivity.
Qed.

Lemma ensure_endpoint_absent_many_delete (n : string) (c : cloud) (svc : service) :
  services_named n (services c) = [svc] ->
  s_id svc = sid ->
  2 <= List.length (endpoints_matching sid r pu iu au (endpoints c)) ->
  exists msg,
    ensure_endpoint_absent n r pu iu au false c
      = (Raise (ValueError msg),
         log EndpointsList (log EndpointsList (log ServicesList c))).
Proof.
  intros Hs Hid He. destruct (two_or_more _ _ He) as (a & b & k & E).
  eexists. unfold ensure_endpoint_absent, bind.
  rewrite (resolve_service_one n c svc Hs), Hid, endpoint_exists_run.
  cbn [endpoints log]. rewrite E. cbn [negb].
  rewrite get_endpoint_many by exact He. reflexivity.
Qed.

(** *** The service name does not resolve *)

Lemma ensure_endpoint_exists_unresolved (n : string) (cm : bool) (c : cloud) :
  services_named n (services c) = [] ->
  ensure_endpoint_exists n r pu iu au cm c
    = (Raise (KeyError ("No keystone services with name " ++ n)), log ServicesList c).
Proof.
  intros Hs. unfold ensure_endpoint_exists, bind.
  rewrite resolve_service_none by exact Hs. reflexivity.
Qed.

Lemma ensure_endpoint_absent_unresolved (n : string) (cm : bool) (c : cloud) :
  services_named n (services c) = [] ->
  ensure_endpoint_absent n r pu iu au cm c
    = (Raise (KeyError ("No keystone services with name " ++ n)), log ServicesList c).
Proof.
  intros Hs. unfold ensure_endpoint_absent, bind.
  rewrite resolve_service_none by exact Hs. reflexivity.
Qed.

End Descriptor.

(** *** The service lookup comes first *)

Ltac calls_from_log :=
  unfold calls_since, log; cbn [calls];
  rewrite <- ?app_assoc; cbn [app]; apply skipn_length_app.

Lemma resolve_service_cases (n : string) (c : cloud) :
  (exists e, get_service n c = (Raise e, log ServicesList c)) \/
  (exists svc, services_named n (services c) = [svc] /\
               get_service n c = (Ok svc, log ServicesList c)).
Proof.
  destruct (services_named n (services c)) as [|a [|b k]] eqn:E.
  - left. eexists. apply resolve_service_none. exact E.
  - right. exists a. split; [reflexivity|]. apply resolve_service_one. exact E.
  - left. eexists. apply resolve_service_many. rewrite E. simpl. lia.
Qed.

Lemma ensure_endpoint_exists_first_call (n : string) (r : option string) (pu : string)
    (iu au : option string) (cm : bool) (c : cloud) :
  exists rest,
    calls_since c (snd (ensure_endpoint_exists n r pu iu au cm c)) = ServicesList :: rest.
Proof.
  destruct (resolve_service_cases n c) as [[e H] | [svc [Hs H]]].
  - unfold ensure_endpoint_exists, bind. rewrite H. cbn [snd].
    eexists. calls_from_log.
  - destruct (endpoints_matching (s_id svc) r pu iu au (endpoints c))
      as [|a [|b k]] eqn:E.
    + destruct cm.
      * rewrite (ensure_endpoint_exists_none_check (s_id svc) r pu iu au n c svc Hs eq_refl E).
        cbn [snd]. eexists. calls_from_log.
      * rewrite (ensure_endpoint_exists_none_create (s_id svc) r pu iu au n c svc Hs eq_refl E).
        cbn [snd]. eexists. unfold calls_since. cbn [calls]. apply skipn_length_app.
    + rewrite (ensure_endpoint_exists_one (s_id svc) r pu iu au n cm c svc a Hs eq_refl E).
      cbn [snd]. eexists. calls_from_log.
    + destruct (ensure_endpoint_exists_many (s_id svc) r pu iu au n cm c svc Hs eq_refl)
        as [msg Hm].
      { rewrite E. simpl. lia. }
      rewrite Hm. cbn [snd]. eexists. calls_from_log.
Qed.

Lemma ensure_endpoint_absent_first_call (n : string) (r : option string) (pu : string)
    (iu au : option string) (cm : bool) (c : cloud) :
  exists rest,
    calls_since c (snd (ensure_endpoint_absent n r pu iu au cm c)) = ServicesList :: rest.
Proof.
  destruct (resolve_service_cases n c) as [[e H] | [svc [Hs H]]].
  - unfold ensure_endpoint_absent, bind. rewrite H. cbn [snd].
    eexists. calls_from_log.
  - destruct (endpoints_matching (s_id svc) r pu iu au (endpoints c))
      as [|a [|b k]] eqn:E.
    + rewrite (ensure_endpoint_absent_none (s_id svc) r pu iu au n cm c svc Hs eq_refl E).
      cbn [snd]. eexists. calls_from_log.
    + destruct cm.
      * rewrite (ensure_endpoint_absent_one_check (s_id svc) r pu iu au n c svc a
                   Hs eq_refl E).
        cbn [snd]. eexists. calls_from_log.
      * rewrite (ensure_endpoint_absent_one_delete (s_id svc) r pu iu au n c svc a
                   Hs eq_refl E).
        cbn [snd]. eexists. unfold calls_since. cbn [calls]. apply skipn_length_app.
    + assert (Hm : 2 <= List.length (endpoints_matching (s_id svc) r pu iu au (endpoints c))).
      { rewrite E. simpl. lia. }
      destruct cm.
      * rewrite (ensure_endpoint_absent_many_check (s_id svc) r pu iu au n c svc
                   Hs eq_refl Hm).
        cbn [snd]. eexists. calls_from_log.
      * destruct (ensure_endpoint_absent_many_delete (s_id svc) r pu iu au n c svc
                    Hs eq_refl Hm) as [msg Hd].
        rewrite Hd. cbn [snd]. eexists. calls_from_log.
Qed.

(** *** A resource just created is the one match of its own descriptor *)

Lemma opt_string_eqb_refl (x : option string) : opt_string_eqb x x = true.
Proof. apply opt_string_eqb_eq. reflexivity. Qed.

Lemma endpoints_matching_after_create (c : cloud) (sid : ident) (r : option string)
    (pu : string) (iu au : option string) :
  endpoints_matching sid r pu iu au (endpoints c) = [] ->
  endpoints_matching sid r pu iu au (endpoints c ++ [mkEndpoint (next_id c) sid r pu iu au])
    = [mkEndpoint (next_id c) sid r pu iu au].
Proof.
  intros H. unfold endpoints_matching in *.
  rewrite filter_app, H. simpl.
  unfold endpoint_match; simpl.
  rewrite Nat.eqb_refl, String.eqb_refl, !opt_string_eqb_refl. reflexivity.
Qed.

End endpoint_facts.

(** ** heat: the polling loop *)

Module heat_facts.
Import heat.

Lemma complete_neq_failed (operation : string) :
  String.eqb (operation ++ "_COMPLETE") (operation ++ "_FAILED") = false.
Proof.
  induction operation as [|a operation IH]; simpl.
  - reflexivity.
  - rewrite Ascii.eqb_refl. exact IH.
Qed.

Lemma pending_step (heat : list lookup) (sn operation status : string)
    (existed : list string) (trace : list event) :
  pending operation status = true ->
  stack_operation_loop (Found status :: heat) sn operation existed trace =
  stack_operation_loop heat sn operation (existed ++ ["yes"])
    (trace ++ [Get sn; Sleep 5]).
Proof.
  unfold pending. rewrite andb_true_iff, !negb_true_iff. intros [Hc Hf].
  simpl. rewrite Hc, Hf. reflexivity.
Qed.

Lemma pending_rounds (pre : list string) :
  forall (heat : list lookup) (sn operation : string) (existed : list string)
         (trace : list event),
  forallb (pending operation) pre = true ->
  stack_operation_loop (map Found pre ++ heat) sn operation existed trace =
  stack_operation_loop heat sn operation
    (existed ++ repeat "yes" (List.length pre)) (trace ++ rounds sn pre).
Proof.
  induction pre as [|st pre IH]; intros heat sn operation existed trace H.
  - simpl. rewrite !app_nil_r. reflexivity.
  - simpl in H. apply andb_true_iff in H. destruct H as [Hst Hpre].
    change (map Found (st :: pre) ++ heat) with (Found st :: (map Found pre ++ heat)).
    rewrite pending_step by exact Hst.
    rewrite IH by exact Hpre.
    simpl. rewrite <- !app_assoc. reflexivity.
Qed.

Lemma yes_in_existed (existed : list string) (n : nat) :
  existsb (String.eqb "yes") (existed ++ repeat "yes" (S n)) = true.
Proof.
  rewrite existsb_app. simpl. apply orb_true_r.
Qed.

Lemma sleeps_rounds (sn : string) (pre : list string) :
  sleeps (rounds sn pre ++ [Get sn]) = repeat (Sleep 5) (List.length pre).
Proof.
  unfold sleeps. induction pre as [|st pre IH]; simpl; auto.
  rewrite IH. reflexivity.
Qed.

Lemma lookups_rounds (sn : string) (pre : list string) :
  lookups (rounds sn pre ++ [Get sn]) = S (List.length pre).
Proof.
  unfold lookups. induction pre as [|st pre IH]; simpl; auto.
Qed.

End heat_facts.

(* ================================================================== *)
(** * The heat module *)

Section Heat.
Import heat heat_facts.

(** C3, as stated, fails: a DELETE whose first lookup raises is reported as
    'Stack Not Found', not as 'Stack Deleted'. *)
Lemma delete_first_lookup_raises_not_found :
  stack_operation [LookupRaises] "ansible-heat" "DELETE"
    = (Some stack_not_found, [Get "ansible-heat"]) /\
  fst (stack_operation [LookupRaises] "ansible-heat" "DELETE") <> Some stack_deleted.
Proof.
  split; [reflexivity | discriminate].
Qed.

(** C3 (amended): when the lookup raises, the outcome is decided by whether
    an earlier lookup of the same loop succeeded, whatever the operation: on
    the very first poll the result is changed=True with 'Stack Not Found'
    (so for CREATE), after at least one successful lookup it is changed=True
    with 'Stack Deleted' (so for a DELETE that saw the stack first). *)
Theorem lookup_raises_outcome (operation sn : string) (pre : list string)
    (heat : list lookup) :
  forallb (pending operation) pre = true ->
  stack_operation (LookupRaises :: heat) sn operation
    = (Some stack_not_found, [Get sn]) /\
  (pre <> [] ->
   stack_operation (map Found pre ++ LookupRaises :: heat) sn operation
     = (Some stack_deleted, rounds sn pre ++ [Get sn])).
Proof.
  intros H. split; [reflexivity|].
  intros Hne. unfold stack_operation.
  rewrite pending_rounds by exact H.
  destruct pre as [|st pre]; [congruence|].
  cbn [stack_operation_loop List.length].
  rewrite yes_in_existed. reflexivity.
Qed.

Lemma lookup_raises_outcome_witness :
  stack_operation [LookupRaises] "ansible-heat" "CREATE"
    = (Some stack_not_found, [Get "ansible-heat"]) /\
  stack_operation [Found "DELETE_IN_PROGRESS"; LookupRaises] "ansible-heat" "DELETE"
    = (Some stack_deleted, [Get "ansible-heat"; Sleep 5; Get "ansible-heat"]) /\
  stack_operation [Found "CREATE_IN_PROGRESS"; LookupRaises] "ansible-heat" "CREATE"
    = (Some stack_deleted, [Get "ansible-heat"; Sleep 5; Get "ansible-heat"]).
Proof.
  split; [|split].
  - apply (lookup_raises_outcome "CREATE" "ansible-heat" [] []). reflexivity.
  - apply (lookup_raises_outcome "DELETE" "ansible-heat" ["DELETE_IN_PROGRESS"] []).
    + reflexivity.
    + discriminate.
  - apply (lookup_raises_outcome "CREATE" "ansible-heat" ["CREATE_IN_PROGRESS"] []).
    + reflexivity.
    + discriminate.
Defined.

(** C5: for every operation and every script whose lookups succeed, the
    statuses before the first terminal one each cost one lookup and one
    sleep of 5; [<operation>_COMPLETE] then ends the loop with the success
    result and [<operation>_FAILED] with the failure result, and nothing
    after it is polled.  So [PENDING, PENDING, CREATE_COMPLETE] sleeps
    exactly twice and succeeds, and [CREATE_FAILED] fails with no sleep. *)
Theorem polling_state_machine (operation sn : string) (pre : list string)
    (heat : list lookup) :
  forallb (pending operation) pre = true ->
  let on_complete :=
    stack_operation (map Found pre ++ Found (operation ++ "_COMPLETE") :: heat)
      sn operation in
  let on_failed :=
    stack_operation (map Found pre ++ Found (operation ++ "_FAILED") :: heat)
      sn operation in
  on_complete = (Some (stack_complete operation), rounds sn pre ++ [Get sn]) /\
  on_failed = (Some (stack_failed operation), rounds sn pre ++ [Get sn]) /\
  sleeps (snd on_complete) = repeat (Sleep 5) (List.length pre) /\
  sleeps (snd on_failed) = repeat (Sleep 5) (List.length pre) /\
  lookups (snd on_complete) = S (List.length pre) /\
  lookups (snd on_failed) = S (List.length pre) /\
  stack_operation [Found "PENDING"; Found "PENDING"; Found "CREATE_COMPLETE"] sn "CREATE"
    = (Some (stack_complete "CREATE"), [Get sn; Sleep 5; Get sn; Sleep 5; Get sn]) /\
  stack_operation [Found "CREATE_FAILED"] sn "CREATE"
    = (Some (stack_failed "CREATE"), [Get sn]).
Proof.
  intros H on_complete on_failed.
  assert (Hc : on_complete = (Some (stack_complete operation), rounds sn pre ++ [Get sn])).
  { unfold on_complete, stack_operation. rewrite pending_rounds by exact H.
    cbn [stack_operation_loop]. rewrite String.eqb_refl. reflexivity. }
  assert (Hf : on_failed = (Some (stack_failed operation), rounds sn pre ++ [Get sn])).
  { unfold on_failed, stack_operation. rewrite pending_rounds by exact H.
    cbn [stack_operation_loop]. rewrite complete_neq_failed, String.eqb_refl.
    reflexivity. }
  rewrite Hc, Hf. cbn [snd].
  rewrite sleeps_rounds, lookups_rounds.
  repeat split; reflexivity.
Qed.

Lemma polling_state_machine_witness :
  stack_operation
    [Found "DELETE_IN_PROGRESS"; Found "DELETE_IN_PROGRESS"; Found "DELETE_COMPLETE";
     Found "DELETE_FAILED"] "ansible-heat" "DELETE"
  = (Some (stack_complete "DELETE"),
     [Get "ansible-heat"; Sleep 5; Get "ansible-heat"; Sleep 5; Get "ansible-heat"]).
Proof.
  apply (polling_state_machine "DELETE" "ansible-heat"
           ["DELETE_IN_PROGRESS"; "DELETE_IN_PROGRESS"] [Found "DELETE_FAILED"]).
  reflexivity.
Defined.

(** C8: where one of the four credentials is the empty string, the module
    prints its message and goes on to run [main] with the credentials as
    they are; it does not stop. *)
Theorem empty_credential_not_fatal (imports_ok : bool) (env : environ) :
  In (Some "") [getenv env "OS_USERNAME"; getenv env "OS_PASSWORD";
                getenv env "OS_TENANT_NAME"; getenv env "OS_AUTH_URL"] ->
  run_module imports_ok env =
    (if imports_ok then [] else [Print import_message]) ++
    [Print credentials_message;
     Main (getenv env "OS_USERNAME") (getenv env "OS_PASSWORD")
          (getenv env "OS_TENANT_NAME") (getenv env "OS_AUTH_URL")].
Proof.
  intros H. unfold run_module.
  assert (E : existsb (opt_string_eqb (Some ""))
                [getenv env "OS_USERNAME"; getenv env "OS_PASSWORD";
                 getenv env "OS_TENANT_NAME"; getenv env "OS_AUTH_URL"] = true).
  { apply existsb_exists. exists (Some ""). split; [exact H|].
    apply opt_string_eqb_eq. reflexivity. }
  rewrite E. reflexivity.
Qed.

Lemma empty_credential_not_fatal_witness :
  run_module true samples.env_empty_username =
    [Print "system environment variables are required for keystone authentication";
     Main (Some "") (Some "secret") (Some "demo") (Some "http://keystone:5000/v2.0")].
Proof.
  apply (empty_credential_not_fatal true samples.env_empty_username).
  simpl. left. reflexivity.
Defined.

(** Whatever the environment, running the module ends by calling [main]. *)
Lemma run_module_reaches_main (imports_ok : bool) (env : environ) :
  exists printed,
    run_module imports_ok env =
      map Print printed ++
      [Main (getenv env "OS_USERNAME") (getenv env "OS_PASSWORD")
            (getenv env "OS_TENANT_NAME") (getenv env "OS_AUTH_URL")].
Proof.
  unfold run_module.
  destruct imports_ok;
    destruct (existsb _ _);
    [ exists [credentials_message] | exists []
    | exists [import_message; credentials_message] | exists [import_message] ];
    reflexivity.
Qed.

End Heat.

(* ================================================================== *)
(** * Reconciliation of services and endpoints *)

Section Reconciliation.
Import service_facts endpoint_facts.

Local Abbreviation s_named := os_keystone_service.services_named.
Local Abbreviation e_named := os_keystone_endpoint.services_named.
Local Abbreviation e_matching := os_keystone_endpoint.endpoints_matching.
Local Abbreviation ensure_service_exists := os_keystone_service.ensure_service_exists.
Local Abbreviation ensure_service_absent := os_keystone_service.ensure_service_absent.
Local Abbreviation ensure_endpoint_exists := os_keystone_endpoint.ensure_endpoint_exists.
Local Abbreviation ensure_endpoint_absent := os_keystone_endpoint.ensure_endpoint_absent.

(** ** Two or more matches *)

(** C1, as stated, fails: with two services named glance the absent path in
    check mode returns True and raises nothing. *)
Lemma ambiguous_absent_check_mode_returns :
  2 <= List.length (s_named "glance" (services samples.twice)) /\
  ensure_service_absent "glance" true samples.twice
    = (Ok (Some true), log ServicesList samples.twice) /\
  ~ (exists msg, fst (ensure_service_absent "glance" true samples.twice)
                 = Raise (ValueError msg)).
Proof.
  split; [simpl; lia|]. split; [reflexivity|].
  intros [msg H]. discriminate H.
Qed.

(** C1 (amended): for a descriptor with two or more remote matches no path
    issues a create or delete call in either mode (the cloud is left as it
    was, with list calls logged only).  The present path raises ValueError
    in both modes, the absent path raises ValueError when check_mode is
    false, and when check_mode is true it returns True. *)
Theorem ambiguous_descriptor :
  (forall (c : cloud) (name ty d : string),
     2 <= List.length (s_named name (services c)) ->
     (forall cm, exists msg,
        ensure_service_exists name ty d cm c
          = (Raise (ValueError msg), log ServicesList c)) /\
     (exists msg,
        ensure_service_absent name false c
          = (Raise (ValueError msg), log ServicesList (log ServicesList c))) /\
     ensure_service_absent name true c = (Ok (Some true), log ServicesList c)) /\
  (forall (c : cloud) (sname : string) (r : option string) (pu : string)
          (iu au : option string) (svc : service),
     e_named sname (services c) = [svc] ->
     2 <= List.length (e_matching (s_id svc) r pu iu au (endpoints c)) ->
     (forall cm, exists msg,
        ensure_endpoint_exists sname r pu iu au cm c
          = (Raise (ValueError msg), log EndpointsList (log ServicesList c))) /\
     (exists msg,
        ensure_endpoint_absent sname r pu iu au false c
          = (Raise (ValueError msg),
             log EndpointsList (log EndpointsList (log ServicesList c)))) /\
     ensure_endpoint_absent sname r pu iu au true c
       = (Ok (Some true), log EndpointsList (log ServicesList c))).
Proof.
  split.
  - intros c name ty d Hs. split; [|split].
    + intros cm. apply ensure_service_exists_many. exact Hs.
    + apply ensure_service_absent_many_delete. exact Hs.
    + apply ensure_service_absent_many_check. exact Hs.
  - intros c sname r pu iu au svc Hsvc He. split; [|split].
    + intros cm. now apply ensure_endpoint_exists_many with (sid := s_id svc) (svc := svc).
    + now apply ensure_endpoint_absent_many_delete with (sid := s_id svc) (svc := svc).
    + now apply ensure_endpoint_absent_many_check with (sid := s_id svc) (svc := svc).
Qed.

Lemma ambiguous_descriptor_witness :
  ensure_service_absent "glance" true samples.twice
    = (Ok (Some true), log ServicesList samples.twice) /\
  ensure_endpoint_absent "nova" (Some "aw1") "https://glance.aw1.bigcompany.com/"
      (Some "http://glance-aw1.internal:9292/") (Some "https://glance.aw1.bigcompany.com/")
      true samples.twice
    = (Ok (Some true), log EndpointsList (log ServicesList samples.twice)).
Proof.
  destruct ambiguous_descriptor as [Hservice Hendpoint].
  split.
  - apply (Hservice samples.twice "glance" "image" "Glance image service").
    simpl; lia.
  - apply (Hendpoint samples.twice "nova" (Some "aw1")
             "https://glance.aw1.bigcompany.com/"
             (Some "http://glance-aw1.internal:9292/")
             (Some "https://glance.aw1.bigcompany.com/") samples.nova).
    + reflexivity.
    + simpl; lia.
Defined.

(** ** The absent path after its delete call *)

(** C2: with exactly one match and check_mode false the absent path
    issues its one delete call and then returns None, not True, and [main]
    reports changed as None; with zero matches it returns False and only
    lists. *)
Theorem absent_returns_None_after_delete :
  (forall (c : cloud) (name : string) (s : service),
     s_named name (services c) = [s] ->
     ensure_service_absent name false c
       = (Ok None,
          mkCloud (filter (fun x => negb (Nat.eqb (s_id x) (s_id s))) (services c))
                  (endpoints c) (next_id c)
                  (calls c ++ [ServicesList; ServicesList; ServicesDelete (s_id s)]))) /\
  (forall (c : cloud) (sname : string) (r : option string) (pu : string)
          (iu au : option string) (svc : service) (e : endpoint),
     e_named sname (services c) = [svc] ->
     e_matching (s_id svc) r pu iu au (endpoints c) = [e] ->
     ensure_endpoint_absent sname r pu iu au false c
       = (Ok None,
          mkCloud (services c)
                  (filter (fun x => negb (Nat.eqb (e_id x) (e_id e))) (endpoints c))
                  (next_id c)
                  (calls c ++ [ServicesList; EndpointsList; EndpointsList;
                               EndpointsDelete (e_id e)]))) /\
  (forall (c : cloud) (p : os_keystone_service.params) (s : service),
     os_keystone_service.state p = "absent" ->
     s_named (os_keystone_service.name p) (services c) = [s] ->
     fst (os_keystone_service.main true p false (Ok c))
       = exit_json [("changed", PyNone); ("id", PyNone)]) /\
  (forall (c : cloud) (name : string) (cm : bool),
     s_named name (services c) = [] ->
     ensure_service_absent name cm c = (Ok (Some false), log ServicesList c)) /\
  (forall (c : cloud) (sname : string) (r : option string) (pu : string)
          (iu au : option string) (svc : service) (cm : bool),
     e_named sname (services c) = [svc] ->
     e_matching (s_id svc) r pu iu au (endpoints c) = [] ->
     ensure_endpoint_absent sname r pu iu au cm c
       = (Ok (Some false), log EndpointsList (log ServicesList c))).
Proof.
  split; [|split; [|split; [|split]]].
  - intros c name s Hs. apply ensure_service_absent_one_delete. exact Hs.
  - intros c sname r pu iu au svc e Hsvc He.
    now apply ensure_endpoint_absent_one_delete with (sid := s_id svc) (svc := svc).
  - intros c p s Hstate Hs.
    unfold os_keystone_service.main, os_keystone_service.main_try.
    rewrite Hstate. cbn [negb String.eqb Ascii.eqb Bool.eqb].
    unfold bind at 1.
    rewrite (ensure_service_absent_one_delete _ c s Hs). reflexivity.
  - intros c name cm Hs. apply ensure_service_absent_none. exact Hs.
  - intros c sname r pu iu au svc cm Hsvc He.
    now apply ensure_endpoint_absent_none with (sid := s_id svc) (svc := svc).
Qed.

Lemma absent_returns_None_after_delete_witness :
  ensure_service_absent "glance" false samples.single
    = (Ok None,
       mkCloud [samples.nova] [samples.endpoint_aw1 4 1] 5
               [ServicesList; ServicesList; ServicesDelete 1]) /\
  fst (os_keystone_service.main true samples.glance_absent false (Ok samples.single))
    = exit_json [("changed", PyNone); ("id", PyNone)] /\
  ensure_endpoint_absent "glance" (Some "aw1") "https://glance.aw1.bigcompany.com/"
      (Some "http://glance-aw1.internal:9292/") (Some "https://glance.aw1.bigcompany.com/")
      false samples.single
    = (Ok None,
       mkCloud [samples.glance; samples.nova] [] 5
               [ServicesList; EndpointsList; EndpointsList; EndpointsDelete 4]).
Proof.
  destruct absent_returns_None_after_delete as (Hservice & Hendpoint & Hmain & _).
  split; [|split].
  - apply (Hservice samples.single "glance" samples.glance). reflexivity.
  - apply (Hmain samples.single samples.glance_absent samples.glance).
    + reflexivity.
    + reflexivity.
  - apply (Hendpoint samples.single "glance" (Some "aw1")
             "https://glance.aw1.bigcompany.com/"
             (Some "http://glance-aw1.internal:9292/")
             (Some "https://glance.aw1.bigcompany.com/")
             samples.glance (samples.endpoint_aw1 4 1)).
    + reflexivity.
    + reflexivity.
Defined.

(** ** Zero matches *)

(** C4: with zero remote matches the present path with check_mode false
    issues its lookup and then exactly one create call, the catalogue grows
    by that one resource, and the result is (True, id of the new resource);
    with check_mode true it issues the lookup only and returns (True, None). *)
Theorem present_creates_on_zero_matches :
  (forall (c : cloud) (name ty d : string),
     s_named name (services c) = [] ->
     let new_service := mkService (next_id c) name ty d in
     ensure_service_exists name ty d false c
       = (Ok (true, Some (s_id new_service)),
          mkCloud (services c ++ [new_service]) (endpoints c) (S (next_id c))
                  (calls c ++ [ServicesList; ServicesCreate name ty d])) /\
     ensure_service_exists name ty d true c
       = (Ok (true, None), log ServicesList c)) /\
  (forall (c : cloud) (sname : string) (r : option string) (pu : string)
          (iu au : option string) (svc : service),
     e_named sname (services c) = [svc] ->
     e_matching (s_id svc) r pu iu au (endpoints c) = [] ->
     let new_endpoint := mkEndpoint (next_id c) (s_id svc) r pu iu au in
     ensure_endpoint_exists sname r pu iu au false c
       = (Ok (true, Some (e_id new_endpoint)),
          mkCloud (services c) (endpoints c ++ [new_endpoint]) (S (next_id c))
                  (calls c ++ [ServicesList; EndpointsList;
                               EndpointsCreate (s_id svc) r pu iu au])) /\
     ensure_endpoint_exists sname r pu iu au true c
       = (Ok (true, None), log EndpointsList (log ServicesList c))).
Proof.
  split.
  - intros c name ty d Hs new_service. split.
    + apply ensure_service_exists_none_create. exact Hs.
    + apply ensure_service_exists_none_check. exact Hs.
  - intros c sname r pu iu au svc Hsvc He new_endpoint. split.
    + now apply ensure_endpoint_exists_none_create with (sid := s_id svc) (svc := svc).
    + now apply ensure_endpoint_exists_none_check with (sid := s_id svc) (svc := svc).
Qed.

Lemma present_creates_on_zero_matches_witness :
  ensure_service_exists "glance" "image" "Glance image service" false samples.empty
    = (Ok (true, Some 1),
       mkCloud [samples.glance] [] 2
               [ServicesList; ServicesCreate "glance" "image" "Glance image service"]) /\
  ensure_endpoint_exists "nova" None "http://nova/" None None true samples.single
    = (Ok (true, None), log EndpointsList (log ServicesList samples.single)).
Proof.
  destruct present_creates_on_zero_matches as [Hservice Hendpoint].
  split.
  - apply (Hservice samples.empty "glance" "image" "Glance image service").
    reflexivity.
  - apply (Hendpoint samples.single "nova" None "http://nova/" None None samples.nova).
    + reflexivity.
    + reflexivity.
Defined.

(** ** Exactly one match *)

(** C6: with exactly one remote match the present path returns
    (False, id of the existing resource) in either mode and issues list
    calls only.  A service matches when its name equals the name asked for;
    an endpoint matches when its service id, region, public, internal and
    admin URLs all equal the ones asked for. *)
Theorem present_noop_on_one_match :
  (forall (c : cloud) (name ty d : string) (s : service) (cm : bool),
     s_named name (services c) = [s] ->
     ensure_service_exists name ty d cm c
       = (Ok (false, Some (s_id s)), log ServicesList c)) /\
  (forall (c : cloud) (sname : string) (r : option string) (pu : string)
          (iu au : option string) (svc : service) (e : endpoint) (cm : bool),
     e_named sname (services c) = [svc] ->
     e_matching (s_id svc) r pu iu au (endpoints c) = [e] ->
     ensure_endpoint_exists sname r pu iu au cm c
       = (Ok (false, Some (e_id e)), log EndpointsList (log ServicesList c))) /\
  (forall (l : list service) (name : string) (x : service),
     In x (s_named name l) <-> In x l /\ s_name x = name) /\
  (forall (l : list endpoint) (sid : ident) (r : option string) (pu : string)
          (iu au : option string) (x : endpoint),
     In x (e_matching sid r pu iu au l) <->
     In x l /\ os_keystone_endpoint.endpoint_match x sid r pu iu au = true) /\
  (forall (x : endpoint) (sid : ident) (r : option string) (pu : string)
          (iu au : option string),
     os_keystone_endpoint.endpoint_match x sid r pu iu au = true <->
     e_service_id x = sid /\ e_region x = r /\ e_publicurl x = pu /\
     e_internalurl x = iu /\ e_adminurl x = au).
Proof.
  split; [|split; [|split; [|split]]].
  - intros c name ty d s cm Hs. apply ensure_service_exists_one. exact Hs.
  - intros c sname r pu iu au svc e cm Hsvc He.
    now apply ensure_endpoint_exists_one with (sid := s_id svc) (svc := svc).
  - intros l name x. apply services_named_In.
  - intros l sid r pu iu au x.
    unfold os_keystone_endpoint.endpoints_matching. apply filter_In.
  - intros x sid r pu iu au. apply endpoint_match_iff.
Qed.

Lemma present_noop_on_one_match_witness :
  ensure_service_exists "glance" "image" "Glance image service" false samples.single
    = (Ok (false, Some 1), log ServicesList samples.single) /\
  ensure_endpoint_exists "glance" (Some "aw1") "https://glance.aw1.bigcompany.com/"
      (Some "http://glance-aw1.internal:9292/") (Some "https://glance.aw1.bigcompany.com/")
      true samples.single
    = (Ok (false, Some 4), log EndpointsList (log ServicesList samples.single)).
Proof.
  destruct present_noop_on_one_match as (Hservice & Hendpoint & _).
  split.
  - apply (Hservice samples.single "glance" "image" "Glance image service"
             samples.glance false).
    reflexivity.
  - apply (Hendpoint samples.single "glance" (Some "aw1")
             "https://glance.aw1.bigcompany.com/"
             (Some "http://glance-aw1.internal:9292/")
             (Some "https://glance.aw1.bigcompany.com/")
             samples.glance (samples.endpoint_aw1 4 1) true).
    + reflexivity.
    + reflexivity.
Defined.

(** ** Idempotence of the present path *)

(** C7: from a catalogue with zero matches, two calls of the present path
    in sequence with the same descriptor and check_mode false return
    (True, id) and then (False, id) with the same id; the second call only
    lists. *)
Theorem present_twice_idempotent :
  (forall (c : cloud) (name ty d : string),
     s_named name (services c) = [] ->
     let first := ensure_service_exists name ty d false c in
     let second := ensure_service_exists name ty d false (snd first) in
     exists id,
       fst first = Ok (true, Some id) /\
       fst second = Ok (false, Some id) /\
       snd second = log ServicesList (snd first)) /\
  (forall (c : cloud) (sname : string) (r : option string) (pu : string)
          (iu au : option string) (svc : service),
     e_named sname (services c) = [svc] ->
     e_matching (s_id svc) r pu iu au (endpoints c) = [] ->
     let first := ensure_endpoint_exists sname r pu iu au false c in
     let second := ensure_endpoint_exists sname r pu iu au false (snd first) in
     exists id,
       fst first = Ok (true, Some id) /\
       fst second = Ok (false, Some id) /\
       snd second = log EndpointsList (log ServicesList (snd first))).
Proof.
  split.
  - intros c name ty d Hs first second. exists (next_id c).
    pose proof (ensure_service_exists_none_create name ty d c Hs) as H1.
    assert (H2 : second = (Ok (false, Some (next_id c)), log ServicesList (snd first))).
    { unfold second, first. rewrite H1. cbn [snd].
      apply (ensure_service_exists_one name ty d false _
               (mkService (next_id c) name ty d)).
      cbn [services]. apply services_named_after_create. exact Hs. }
    rewrite H2. unfold first. rewrite H1. repeat split.
  - intros c sname r pu iu au svc Hsvc He first second. exists (next_id c).
    pose proof (ensure_endpoint_exists_none_create (s_id svc) r pu iu au sname c svc
                  Hsvc eq_refl He) as H1.
    assert (H2 : second = (Ok (false, Some (next_id c)),
                           log EndpointsList (log ServicesList (snd first)))).
    { unfold second, first. rewrite H1. cbn [snd].
      apply (ensure_endpoint_exists_one (s_id svc) r pu iu au sname false _ svc
               (mkEndpoint (next_id c) (s_id svc) r pu iu au)).
      - cbn [services]. exact Hsvc.
      - reflexivity.
      - cbn [endpoints]. apply endpoints_matching_after_create. exact He. }
    rewrite H2. unfold first. rewrite H1. repeat split.
Qed.

Lemma present_twice_idempotent_witness :
  exists id,
    fst (ensure_service_exists "glance" "image" "Glance image service" false
           samples.empty)
      = Ok (true, Some id) /\
    fst (ensure_service_exists "glance" "image" "Glance image service" false
           (snd (ensure_service_exists "glance" "image" "Glance image service" false
                   samples.empty)))
      = Ok (false, Some id).
Proof.
  destruct present_twice_idempotent as [Hservice _].
  destruct (Hservice samples.empty "glance" "image" "Glance image service")
    as (id & H1 & H2 & _).
  - reflexivity.
  - exists id. split; [exact H1 | exact H2].
Defined.

(** ** Endpoints of a service that does not exist *)

(** C10: both endpoint paths look the service up by name before any other
    call; where no service has that name they raise KeyError with that one
    list call issued and the catalogue of endpoints as it was. *)
Theorem endpoint_paths_resolve_service_first :
  (forall (c : cloud) (sname : string) (r : option string) (pu : string)
          (iu au : option string) (cm : bool),
     (exists rest,
        calls_since c (snd (ensure_endpoint_exists sname r pu iu au cm c))
          = ServicesList :: rest) /\
     (exists rest,
        calls_since c (snd (ensure_endpoint_absent sname r pu iu au cm c))
          = ServicesList :: rest)) /\
  (forall (c : cloud) (sname : string) (r : option string) (pu : string)
          (iu au : option string) (cm : bool),
     e_named sname (services c) = [] ->
     let present := ensure_endpoint_exists sname r pu iu au cm c in
     let absent := ensure_endpoint_absent sname r pu iu au cm c in
     present = (Raise (KeyError ("No keystone services with name " ++ sname)),
                log ServicesList c) /\
     absent = (Raise (KeyError ("No keystone services with name " ++ sname)),
               log ServicesList c) /\
     endpoints (snd present) = endpoints c /\
     endpoints (snd absent) = endpoints c /\
     calls_since c (snd present) = [ServicesList] /\
     calls_since c (snd absent) = [ServicesList]).
Proof.
  split.
  - intros c sname r pu iu au cm. split.
    + apply ensure_endpoint_exists_first_call.
    + apply ensure_endpoint_absent_first_call.
  - intros c sname r pu iu au cm Hs present absent.
    assert (Hp := ensure_endpoint_exists_unresolved r pu iu au sname cm c Hs).
    assert (Ha := ensure_endpoint_absent_unresolved r pu iu au sname cm c Hs).
    fold present in Hp. fold absent in Ha. rewrite Hp, Ha. cbn [snd].
    rewrite calls_since_log1. repeat split.
Qed.

Lemma endpoint_paths_resolve_service_first_witness :
  ensure_endpoint_exists "swift" (Some "aw1") "https://swift.aw1.bigcompany.com/"
      None None false samples.single
    = (Raise (KeyError "No keystone services with name swift"),
       log ServicesList samples.single) /\
  ensure_endpoint_absent "swift" (Some "aw1") "https://swift.aw1.bigcompany.com/"
      None None false samples.single
    = (Raise (KeyError "No keystone services with name swift"),
       log ServicesList samples.single).
Proof.
  destruct endpoint_paths_resolve_service_first as [_ H].
  destruct (H samples.single "swift" (Some "aw1") "https://swift.aw1.bigcompany.com/"
              None None false) as (Hp & Ha & _).
  - reflexivity.
  - split; [exact Hp | exact Ha].
Defined.

(** ** Exceptions in check mode *)

Lemma state_among_choices (state : string) :
  existsb (String.eqb state) ["present"; "absent"] = true <->
  state = "present" \/ state = "absent".
Proof.
  cbn [existsb]. rewrite !orb_true_iff, !String.eqb_eq. intuition congruence.
Qed.

Lemma service_module_finished (has : bool) (p : os_keystone_service.params)
    (cm : bool) (oc : cloud_constructor) (o : outcome) (c : option cloud) :
  ansible.service_module has p cm oc = ansible.finished o c ->
  cm = false /\
  (os_keystone_service.state p = "present" \/ os_keystone_service.state p = "absent") /\
  os_keystone_service.main has p false oc = (o, c).
Proof.
  unfold ansible.service_module, ansible.AnsibleModule.
  destruct cm; cbn [andb negb]; [discriminate|].
  destruct (existsb (String.eqb (os_keystone_service.state p)) ["present"; "absent"])
    eqn:E; cbn [negb]; [|discriminate].
  destruct (os_keystone_service.main has p false oc) as [o' c'].
  intros H. inversion H; subst. split; [reflexivity|].
  split; [apply state_among_choices; exact E | reflexivity].
Qed.

Lemma endpoint_module_finished (has : bool) (p : os_keystone_endpoint.params)
    (cm : bool) (oc : cloud_constructor) (o : outcome) (c : option cloud) :
  ansible.endpoint_module has p cm oc = ansible.finished o c ->
  cm = false /\
  (os_keystone_endpoint.state p = "present" \/ os_keystone_endpoint.state p = "absent") /\
  os_keystone_endpoint.main has p false oc = (o, c).
Proof.
  unfold ansible.endpoint_module, ansible.AnsibleModule.
  destruct cm; cbn [andb negb]; [discriminate|].
  destruct (existsb (String.eqb (os_keystone_endpoint.state p)) ["present"; "absent"])
    eqn:E; cbn [negb]; [|discriminate].
  destruct (os_keystone_endpoint.main has p false oc) as [o' c'].
  intros H. inversion H; subst. split; [reflexivity|].
  split; [apply state_among_choices; exact E | reflexivity].
Qed.

(** C9: the handler of [main] that turns an exception into
    [exit_json(changed=True, msg=...)] is never reached.  A run in check mode
    of either module is ended by the constructor of the module object,
    skipped, whatever the parameters, the cloud and the availability of
    shade: no cloud is built and no exception is caught.  A run gets as far
    as [main] only with check_mode false and [state] present or absent, and
    an exception of its [try] block then ends in
    [fail_json(msg='exception: ...')]; so does no run in check mode end in a
    failure report. *)
Theorem check_mode_run_is_skipped :
  (forall (has : bool) (ps : os_keystone_service.params)
          (pe : os_keystone_endpoint.params) (oc : cloud_constructor),
     ansible.service_module has ps true oc = ansible.skipped /\
     ansible.endpoint_module has pe true oc = ansible.skipped) /\
  (forall (has cm : bool) (ps : os_keystone_service.params) (oc : cloud_constructor)
          (o : outcome) (c : option cloud),
     ansible.service_module has ps cm oc = ansible.finished o c ->
     cm = false /\ os_keystone_service.main has ps false oc = (o, c)) /\
  (forall (has cm : bool) (pe : os_keystone_endpoint.params) (oc : cloud_constructor)
          (o : outcome) (c : option cloud),
     ansible.endpoint_module has pe cm oc = ansible.finished o c ->
     cm = false /\ os_keystone_endpoint.main has pe false oc = (o, c)) /\
  (forall (has cm : bool) (ps : os_keystone_service.params)
          (pe : os_keystone_endpoint.params) (oc : cloud_constructor),
     (ansible.service_module has ps cm oc = ansible.rejected -> cm = false) /\
     (ansible.endpoint_module has pe cm oc = ansible.rejected -> cm = false)) /\
  (forall (ps : os_keystone_service.params) (oc : cloud_constructor)
          (e : exn) (c : option cloud),
     os_keystone_service.state ps = "present" \/ os_keystone_service.state ps = "absent" ->
     os_keystone_service.main_try ps false oc = (Raise e, c) ->
     ansible.service_module true ps false oc
       = ansible.finished (fail_json [("msg", PyExcText e)]) c) /\
  (forall (pe : os_keystone_endpoint.params) (oc : cloud_constructor)
          (e : exn) (c : option cloud),
     os_keystone_endpoint.state pe = "present" \/ os_keystone_endpoint.state pe = "absent" ->
     os_keystone_endpoint.main_try pe false oc = (Raise e, c) ->
     ansible.endpoint_module true pe false oc
       = ansible.finished (fail_json [("msg", PyExcText e)]) c).
Proof.
  split; [|split; [|split; [|split; [|split]]]].
  - intros has ps pe oc. split; reflexivity.
  - intros has cm ps oc o c H.
    destruct (service_module_finished has ps cm oc o c H) as (Hcm & _ & Hmain).
    split; assumption.
  - intros has cm pe oc o c H.
    destruct (endpoint_module_finished has pe cm oc o c H) as (Hcm & _ & Hmain).
    split; assumption.
  - intros has cm ps pe oc. split.
    + destruct cm; [|reflexivity]. discriminate.
    + destruct cm; [|reflexivity]. discriminate.
  - intros ps oc e c Hstate Htry.
    apply state_among_choices in Hstate.
    unfold ansible.service_module, ansible.AnsibleModule.
    cbn [andb]. rewrite Hstate. cbn [negb].
    unfold os_keystone_service.main. cbn [negb]. rewrite Htry. reflexivity.
  - intros pe oc e c Hstate Htry.
    apply state_among_choices in Hstate.
    unfold ansible.endpoint_module, ansible.AnsibleModule.
    cbn [andb]. rewrite Hstate. cbn [negb].
    unfold os_keystone_endpoint.main. cbn [negb]. rewrite Htry. reflexivity.
Qed.

Lemma check_mode_run_is_skipped_witness :
  ansible.service_module true samples.glance_present true (Ok samples.twice)
    = ansible.skipped /\
  ansible.service_module true samples.glance_present false (Ok samples.twice)
    = ansible.finished
        (fail_json [("msg", PyExcText (ValueError "2 services with name glance"))])
        (Some (log ServicesList samples.twice)) /\
  ansible.endpoint_module true samples.swift_endpoint_present false (Ok samples.single)
    = ansible.finished
        (fail_json [("msg", PyExcText (KeyError "No keystone services with name swift"))])
        (Some (log ServicesList samples.single)).
Proof.
  destruct check_mode_run_is_skipped as (Hskip & _ & _ & _ & Hservice & Hendpoint).
  split; [|split].
  - apply (Hskip true samples.glance_present samples.swift_endpoint_present
             (Ok samples.twice)).
  - apply (Hservice samples.glance_present (Ok samples.twice)).
    + left. reflexivity.
    + reflexivity.
  - apply (Hendpoint samples.swift_endpoint_present (Ok samples.single)).
    + left. reflexivity.
    + reflexivity.
Defined.

End Reconciliation.

(* ================================================================== *)
(** * Further properties of the reconciliation *)

Section ReadOnly.
Import service_facts endpoint_facts.

Lemma read_only_refl (c : cloud) : read_only c c.
Proof.
  repeat split. exists []. rewrite app_nil_r. split; reflexivity.
Qed.

Lemma read_only_log (c c' : cloud) (k : call) :
  read_only c c' -> is_list_call k = true -> read_only c (log k c').
Proof.
  intros (Hs & He & Hn & ks & Hk & Hl) Hlist.
  repeat split; cbn [log services endpoints next_id calls]; try assumption.
  exists (ks ++ [k]). split.
  - rewrite Hk, app_assoc. reflexivity.
  - rewrite forallb_app, Hl. simpl. rewrite Hlist. reflexivity.
Qed.

Lemma mutations_of_list_calls (ks : list call) :
  forallb is_list_call ks = true -> mutations ks = [].
Proof.
  unfold mutations. induction ks as [|k ks IH]; simpl; intros H; auto.
  apply andb_true_iff in H. destruct H as [Hk H]. rewrite Hk. simpl. auto.
Qed.

Lemma read_only_calls_since (c c' : cloud) :
  read_only c c' -> mutations (calls_since c c') = [].
Proof.
  intros (_ & _ & _ & ks & Hk & Hl).
  unfold calls_since. rewrite Hk, skipn_length_app.
  apply mutations_of_list_calls. exact Hl.
Qed.

(** Every lookup leaves the catalogue as it was and logs its one list call. *)
Lemma service_get_service_state (n : string) (c : cloud) :
  snd (os_keystone_service.get_service n c) = log ServicesList c.
Proof.
  unfold os_keystone_service.get_service, bind, services_list.
  destruct (os_keystone_service.services_named n (services c)) as [|a [|b k]];
    reflexivity.
Qed.

Lemma endpoint_get_service_state (n : string) (c : cloud) :
  snd (os_keystone_endpoint.get_service n c) = log ServicesList c.
Proof.
  unfold os_keystone_endpoint.get_service, bind, services_list.
  destruct (os_keystone_endpoint.services_named n (services c)) as [|a [|b k]];
    reflexivity.
Qed.

Lemma get_endpoint_state (sid : ident) (r : option string) (pu : string)
    (iu au : option string) (c : cloud) :
  snd (os_keystone_endpoint.get_endpoint sid r pu iu au c) = log EndpointsList c.
Proof.
  unfold os_keystone_endpoint.get_endpoint, bind, endpoints_list.
  destruct (os_keystone_endpoint.endpoints_matching sid r pu iu au (endpoints c))
    as [|a [|b k]]; reflexivity.
Qed.

Lemma ensure_service_exists_check_state (n ty d : string) (c : cloud) :
  snd (os_keystone_service.ensure_service_exists n ty d true c) = log ServicesList c.
Proof.
  unfold os_keystone_service.ensure_service_exists, bind, try_except_KeyError.
  pose proof (service_get_service_state n c) as H.
  destruct (os_keystone_service.get_service n c) as [[s|e] c1]; cbn [snd] in *;
    subst c1; [reflexivity | destruct e; reflexivity].
Qed.

Lemma ensure_service_absent_check_state (n : string) (c : cloud) :
  snd (os_keystone_service.ensure_service_absent n true c) = log ServicesList c.
Proof.
  unfold os_keystone_service.ensure_service_absent, bind.
  rewrite service_exists_run.
  destruct (os_keystone_service.services_named n (services c)); reflexivity.
Qed.

Lemma ensure_endpoint_exists_check_state (n : string) (r : option string) (pu : string)
    (iu au : option string) (c : cloud) :
  let c' := snd (os_keystone_endpoint.ensure_endpoint_exists n r pu iu au true c) in
  c' = log ServicesList c \/ c' = log EndpointsList (log ServicesList c).
Proof.
  unfold os_keystone_endpoint.ensure_endpoint_exists, bind, try_except_KeyError.
  pose proof (endpoint_get_service_state n c) as H.
  destruct (os_keystone_endpoint.get_service n c) as [[svc|e] c1]; cbn [snd] in *;
    subst c1; [|left; reflexivity].
  pose proof (get_endpoint_state (s_id svc) r pu iu au (log ServicesList c)) as H.
  destruct (os_keystone_endpoint.get_endpoint (s_id svc) r pu iu au (log ServicesList c))
    as [[x|e] c2]; cbn [snd] in *; subst c2; right;
    [reflexivity | destruct e; reflexivity].
Qed.

Lemma ensure_endpoint_absent_check_state (n : string) (r : option string) (pu : string)
    (iu au : option string) (c : cloud) :
  let c' := snd (os_keystone_endpoint.ensure_endpoint_absent n r pu iu au true c) in
  c' = log ServicesList c \/ c' = log EndpointsList (log ServicesList c).
Proof.
  unfold os_keystone_endpoint.ensure_endpoint_absent, bind.
  pose proof (endpoint_get_service_state n c) as H.
  destruct (os_keystone_endpoint.get_service n c) as [[svc|e] c1]; cbn [snd] in *;
    subst c1; [|left; reflexivity].
  rewrite endpoint_exists_run. right.
  destruct (os_keystone_endpoint.endpoints_matching _ _ _ _ _ _); reflexivity.
Qed.

Lemma read_only_log1 (c : cloud) (k : call) :
  is_list_call k = true -> read_only c (log k c).
Proof. intros H. apply read_only_log; [apply read_only_refl | exact H]. Qed.

Lemma read_only_log2 (c : cloud) (k1 k2 : call) :
  is_list_call k1 = true -> is_list_call k2 = true -> read_only c (log k2 (log k1 c)).
Proof. intros H1 H2. apply read_only_log; [apply read_only_log1; exact H1 | exact H2]. Qed.

(** X1: in check mode none of the four reconciliation functions changes the
    catalogue or issues a create or delete call, whatever the catalogue
    holds (no match, one, several, or a service name that does not
    resolve): the cloud afterwards is the cloud before with list calls
    logged. *)
Theorem check_mode_is_read_only (c : cloud) (n ty d : string) (r : option string)
    (pu : string) (iu au : option string) :
  let after_service_present :=
    snd (os_keystone_service.ensure_service_exists n ty d true c) in
  let after_service_absent :=
    snd (os_keystone_service.ensure_service_absent n true c) in
  let after_endpoint_present :=
    snd (os_keystone_endpoint.ensure_endpoint_exists n r pu iu au true c) in
  let after_endpoint_absent :=
    snd (os_keystone_endpoint.ensure_endpoint_absent n r pu iu au true c) in
  (read_only c after_service_present /\
   mutations (calls_since c after_service_present) = []) /\
  (read_only c after_service_absent /\
   mutations (calls_since c after_service_absent) = []) /\
  (read_only c after_endpoint_present /\
   mutations (calls_since c after_endpoint_present) = []) /\
  (read_only c after_endpoint_absent /\
   mutations (calls_since c after_endpoint_absent) = []).
Proof.
  cbv zeta.
  assert (both : forall c', read_only c c' ->
                   read_only c c' /\ mutations (calls_since c c') = []).
  { intros c' H. split; [exact H | apply read_only_calls_since; exact H]. }
  split; [|split; [|split]]; apply both.
  - rewrite ensure_service_exists_check_state. now apply read_only_log1.
  - rewrite ensure_service_absent_check_state. now apply read_only_log1.
  - destruct (ensure_endpoint_exists_check_state n r pu iu au c) as [H|H];
      rewrite H; [now apply read_only_log1 | now apply read_only_log2].
  - destruct (ensure_endpoint_absent_check_state n r pu iu au c) as [H|H];
      rewrite H; [now apply read_only_log1 | now apply read_only_log2].
Qed.

End ReadOnly.

Section DryRun.
Import service_facts endpoint_facts.

Lemma calls_since_append (c : cloud) (ss : list service) (es : list endpoint)
    (i : ident) (ks : list call) :
  calls_since c (mkCloud ss es i (calls c ++ ks)) = ks.
Proof. unfold calls_since. cbn [calls]. apply skipn_length_app. Qed.

Lemma calls_since_listed2 (c : cloud) (k1 k2 : call) :
  calls_since c (log k2 (log k1 c)) = [k1; k2].
Proof.
  unfold log. cbn [services endpoints next_id calls].
  rewrite <- app_assoc. apply calls_since_append.
Qed.


(** X3: the present path in check mode predicts the run with check mode
    off up to its create call, on the same catalogue.  Where the dry run
    returns (True, None), the real run issues the same lookups and then its
    create call; where the dry run returns (False, id) or raises, the real
    run does exactly the same, result and calls.  Nothing is said of what
    the create call answers. *)
Theorem present_dry_run_predicts (c : cloud) (n ty d : string) (r : option string)
    (pu : string) (iu au : option string) :
  (let dry := os_keystone_service.ensure_service_exists n ty d true c in
   let real := os_keystone_service.ensure_service_exists n ty d false c in
   (fst dry = Ok (true, None) /\
    calls_since c (snd real)
      = calls_since c (snd dry) ++ [ServicesCreate n ty d]) \/
   ((exists id, fst dry = Ok (false, Some id)) /\ real = dry) \/
   ((exists e, fst dry = Raise e) /\ real = dry)) /\
  (let dry := os_keystone_endpoint.ensure_endpoint_exists n r pu iu au true c in
   let real := os_keystone_endpoint.ensure_endpoint_exists n r pu iu au false c in
   (fst dry = Ok (true, None) /\
    exists svc,
      os_keystone_endpoint.services_named n (services c) = [svc] /\
      calls_since c (snd real)
        = calls_since c (snd dry) ++ [EndpointsCreate (s_id svc) r pu iu au]) \/
   ((exists id, fst dry = Ok (false, Some id)) /\ real = dry) \/
   ((exists e, fst dry = Raise e) /\ real = dry)).
Proof.
  cbv zeta. split.
  - destruct (os_keystone_service.services_named n (services c)) as [|a [|b k]] eqn:E.
    + left.
      rewrite (ensure_service_exists_none_check n ty d c E).
      rewrite (ensure_service_exists_none_create n ty d c E).
      cbn [fst snd]. split; [reflexivity|].
      rewrite calls_since_log1, calls_since_append. reflexivity.
    + right. left.
      rewrite (ensure_service_exists_one n ty d true c a E).
      rewrite (ensure_service_exists_one n ty d false c a E).
      split; [eexists; reflexivity | reflexivity].
    + right. right.
      assert (Hm : 2 <= List.length (os_keystone_service.services_named n (services c))).
      { rewrite E. simpl. lia. }
      assert (Hrun : forall cm,
                os_keystone_service.ensure_service_exists n ty d cm c
                = (Raise (ValueError
                            (fmt_d (List.length
                                      (os_keystone_service.services_named n (services c)))
                             ++ " services with name " ++ n)),
                   log ServicesList c)).
      { intros cm.
        unfold os_keystone_service.ensure_service_exists, bind, try_except_KeyError.
        rewrite service_facts.get_service_many by exact Hm. reflexivity. }
      rewrite (Hrun true), (Hrun false).
      split; [eexists; reflexivity | reflexivity].
  - destruct (resolve_service_cases n c) as [[e He] | [svc [Hs _]]].
    + right. right.
      assert (Hrun : forall cm,
                os_keystone_endpoint.ensure_endpoint_exists n r pu iu au cm c
                = (Raise e, log ServicesList c)).
      { intros cm. unfold os_keystone_endpoint.ensure_endpoint_exists, bind.
        rewrite He. reflexivity. }
      rewrite (Hrun true), (Hrun false).
      split; [eexists; reflexivity | reflexivity].
    + destruct (os_keystone_endpoint.endpoints_matching (s_id svc) r pu iu au (endpoints c))
        as [|a [|b k]] eqn:E.
      * left.
        rewrite (ensure_endpoint_exists_none_check (s_id svc) r pu iu au n c svc
                   Hs eq_refl E).
        rewrite (ensure_endpoint_exists_none_create (s_id svc) r pu iu au n c svc
                   Hs eq_refl E).
        cbn [fst snd]. split; [reflexivity|].
        exists svc. split; [exact Hs|].
        rewrite calls_since_listed2, calls_since_append. reflexivity.
      * right. left.
        rewrite (ensure_endpoint_exists_one (s_id svc) r pu iu au n true c svc a
                   Hs eq_refl E).
        rewrite (ensure_endpoint_exists_one (s_id svc) r pu iu au n false c svc a
                   Hs eq_refl E).
        split; [eexists; reflexivity | reflexivity].
      * right. right.
        assert (Hm : 2 <= List.length
                       (os_keystone_endpoint.endpoints_matching (s_id svc) r pu iu au
                          (endpoints c))).
        { rewrite E. simpl. lia. }
        assert (Hrun : forall cm,
                  os_keystone_endpoint.ensure_endpoint_exists n r pu iu au cm c
                  = (Raise (ValueError
                              (fmt_d (List.length
                                        (os_keystone_endpoint.endpoints_matching
                                           (s_id svc) r pu iu au (endpoints c)))
                               ++ " services with "
                               ++ os_keystone_endpoint.descr (s_id svc) r pu iu au)),
                     log EndpointsList (log ServicesList c))).
        { intros cm.
          unfold os_keystone_endpoint.ensure_endpoint_exists, bind, try_except_KeyError.
          rewrite (resolve_service_one n c svc Hs).
          rewrite get_endpoint_many by exact Hm. reflexivity. }
        rewrite (Hrun true), (Hrun false).
        split; [eexists; reflexivity | reflexivity].
Qed.

End DryRun.

Section Convergence.
Import service_facts endpoint_facts.

Local Abbreviation s_named := os_keystone_service.services_named.
Local Abbreviation e_named := os_keystone_endpoint.services_named.
Local Abbreviation e_matching := os_keystone_endpoint.endpoints_matching.
Local Abbreviation ensure_service_exists := os_keystone_service.ensure_service_exists.
Local Abbreviation ensure_service_absent := os_keystone_service.ensure_service_absent.
Local Abbreviation ensure_endpoint_exists := os_keystone_endpoint.ensure_endpoint_exists.
Local Abbreviation ensure_endpoint_absent := os_keystone_endpoint.ensure_endpoint_absent.

Lemma filter_swap (A : Type) (f g : A -> bool) (l : list A) :
  filter f (filter g l) = filter g (filter f l).
Proof.
  induction l as [|a l IH]; simpl; auto.
  destruct (g a) eqn:Hg, (f a) eqn:Hf; simpl; rewrite ?Hg, ?Hf, IH; reflexivity.
Qed.

Lemma services_named_after_delete (n : string) (l : list service) (s : service) :
  s_named n l = [s] ->
  s_named n (filter (fun x => negb (Nat.eqb (s_id x) (s_id s))) l) = [].
Proof.
  intros H. unfold os_keystone_service.services_named in *.
  rewrite filter_swap, H. simpl. rewrite Nat.eqb_refl. reflexivity.
Qed.

Lemma endpoints_matching_after_delete (sid : ident) (r : option string) (pu : string)
    (iu au : option string) (l : list endpoint) (e : endpoint) :
  e_matching sid r pu iu au l = [e] ->
  e_matching sid r pu iu au (filter (fun x => negb (Nat.eqb (e_id x) (e_id e))) l) = [].
Proof.
  intros H. unfold os_keystone_endpoint.endpoints_matching in *.
  rewrite filter_swap, H. simpl. rewrite Nat.eqb_refl. reflexivity.
Qed.

Lemma endpoint_path_service_raises (n : string) (r : option string) (pu : string)
    (iu au : option string) (cm : bool) (c c1 : cloud) (e : exn) :
  os_keystone_endpoint.get_service n c = (Raise e, c1) ->
  ensure_endpoint_exists n r pu iu au cm c = (Raise e, c1) /\
  ensure_endpoint_absent n r pu iu au cm c = (Raise e, c1).
Proof.
  intros H.
  unfold os_keystone_endpoint.ensure_endpoint_exists,
    os_keystone_endpoint.ensure_endpoint_absent, bind.
  rewrite H. split; reflexivity.
Qed.

(** X4: whenever the present path with check mode off returns, exactly one
    resource matches the descriptor afterwards and the identifier returned
    is that resource's; [changed] is True exactly when nothing matched
    before the call. *)
Theorem present_establishes_unique_match :
  (forall (c c' : cloud) (n ty d : string) (changed : bool) (id : option ident),
     ensure_service_exists n ty d false c = (Ok (changed, id), c') ->
     (exists s, s_named n (services c') = [s] /\ id = Some (s_id s)) /\
     (changed = true <-> s_named n (services c) = [])) /\
  (forall (c c' : cloud) (n : string) (r : option string) (pu : string)
          (iu au : option string) (changed : bool) (id : option ident),
     ensure_endpoint_exists n r pu iu au false c = (Ok (changed, id), c') ->
     exists svc,
       e_named n (services c') = [svc] /\
       (exists e, e_matching (s_id svc) r pu iu au (endpoints c') = [e] /\
                  id = Some (e_id e)) /\
       (changed = true <-> e_matching (s_id svc) r pu iu au (endpoints c) = [])).
Proof.
  split.
  - intros c c' n ty d changed id H.
    destruct (s_named n (services c)) as [|a [|b k]] eqn:E.
    + rewrite (ensure_service_exists_none_create n ty d c E) in H.
      inversion H; subst; clear H. split.
      * eexists. split; [apply services_named_after_create; exact E | reflexivity].
      * split; reflexivity.
    + rewrite (ensure_service_exists_one n ty d false c a E) in H.
      inversion H; subst; clear H. split.
      * exists a. split; [exact E | reflexivity].
      * split; discriminate.
    + destruct (ensure_service_exists_many n ty d false c) as [msg Hm].
      { rewrite E. simpl. lia. }
      rewrite Hm in H. discriminate H.
  - intros c c' n r pu iu au changed id H.
    destruct (resolve_service_cases n c) as [[e He] | [svc [Hs _]]].
    + destruct (endpoint_path_service_raises n r pu iu au false c _ e He) as [Hp _].
      rewrite Hp in H. discriminate H.
    + exists svc.
      destruct (e_matching (s_id svc) r pu iu au (endpoints c)) as [|a [|b k]] eqn:E.
      * rewrite (ensure_endpoint_exists_none_create (s_id svc) r pu iu au n c svc
                   Hs eq_refl E) in H.
        inversion H; subst; clear H. cbn [services endpoints].
        split; [exact Hs|]. split.
        -- eexists. split; [apply endpoints_matching_after_create; exact E | reflexivity].
        -- split; reflexivity.
      * rewrite (ensure_endpoint_exists_one (s_id svc) r pu iu au n false c svc a
                   Hs eq_refl E) in H.
        inversion H; subst; clear H. cbn [services endpoints log].
        split; [exact Hs|]. split.
        -- exists a. split; [exact E | reflexivity].
        -- split; discriminate.
      * destruct (ensure_endpoint_exists_many (s_id svc) r pu iu au n false c svc
                    Hs eq_refl) as [msg Hm].
        { rewrite E. simpl. lia. }
        rewrite Hm in H. discriminate H.
Qed.

Lemma present_establishes_unique_match_witness :
  exists s,
    s_named "swift" (services (snd (ensure_service_exists "swift" "object-store"
                                      "Not provided" false samples.single))) = [s] /\
    s_id s = 5.
Proof.
  destruct present_establishes_unique_match as [Hservice _].
  destruct (Hservice samples.single
              (snd (ensure_service_exists "swift" "object-store" "Not provided" false
                      samples.single))
              "swift" "object-store" "Not provided" true (Some 5))
    as [(s & Hs & Hid) _].
  - reflexivity.
  - exists s. split; [exact Hs | congruence].
Defined.

(** X5: whenever the absent path with check mode off returns, nothing
    matches the descriptor afterwards, and calling it again on the resulting
    catalogue returns False after its lookups, with no delete call. *)
Theorem absent_removes_every_match :
  (forall (c c' : cloud) (n : string) (r : option bool),
     ensure_service_absent n false c = (Ok r, c') ->
     s_named n (services c') = [] /\
     ensure_service_absent n false c' = (Ok (Some false), log ServicesList c')) /\
  (forall (c c' : cloud) (n : string) (r : option string) (pu : string)
          (iu au : option string) (res : option bool),
     ensure_endpoint_absent n r pu iu au false c = (Ok res, c') ->
     exists svc,
       e_named n (services c') = [svc] /\
       e_matching (s_id svc) r pu iu au (endpoints c') = [] /\
       ensure_endpoint_absent n r pu iu au false c'
         = (Ok (Some false), log EndpointsList (log ServicesList c'))).
Proof.
  split.
  - intros c c' n r H.
    assert (E' : s_named n (services c') = []).
    { destruct (s_named n (services c)) as [|a [|b k]] eqn:E.
      - rewrite (ensure_service_absent_none n false c E) in H.
        inversion H; subst. exact E.
      - rewrite (ensure_service_absent_one_delete n c a E) in H.
        inversion H; subst. cbn [services].
        apply services_named_after_delete. exact E.
      - destruct (ensure_service_absent_many_delete n c) as [msg Hm].
        { rewrite E. simpl. lia. }
        rewrite Hm in H. discriminate H. }
    split; [exact E' | apply ensure_service_absent_none; exact E'].
  - intros c c' n r pu iu au res H.
    destruct (resolve_service_cases n c) as [[e He] | [svc [Hs _]]].
    + destruct (endpoint_path_service_raises n r pu iu au false c _ e He) as [_ Ha].
      rewrite Ha in H. discriminate H.
    + exists svc.
      assert (E' : e_named n (services c') = [svc] /\
                   e_matching (s_id svc) r pu iu au (endpoints c') = []).
      { destruct (e_matching (s_id svc) r pu iu au (endpoints c)) as [|a [|b k]] eqn:E.
        - rewrite (ensure_endpoint_absent_none (s_id svc) r pu iu au n false c svc
                     Hs eq_refl E) in H.
          inversion H; subst. split; [exact Hs | exact E].
        - rewrite (ensure_endpoint_absent_one_delete (s_id svc) r pu iu au n c svc a
                     Hs eq_refl E) in H.
          inversion H; subst. cbn [services endpoints]. split; [exact Hs|].
          apply endpoints_matching_after_delete. exact E.
        - destruct (ensure_endpoint_absent_many_delete (s_id svc) r pu iu au n c svc
                      Hs eq_refl) as [msg Hm].
          { rewrite E. simpl. lia. }
          rewrite Hm in H. discriminate H. }
      destruct E' as [Hs' He'].
      split; [exact Hs'|]. split; [exact He'|].
      now apply ensure_endpoint_absent_none with (sid := s_id svc) (svc := svc).
Qed.

Lemma absent_removes_every_match_witness :
  s_named "glance"
    (services (snd (ensure_service_absent "glance" false samples.single))) = [].
Proof.
  destruct absent_removes_every_match as [Hservice _].
  apply (Hservice samples.single
           (snd (ensure_service_absent "glance" false samples.single)) "glance" None).
  reflexivity.
Defined.

(** X6: the membership test and the lookup agree on existence: on the same
    catalogue [service_exists] is False exactly when [get_service] raises
    KeyError, and [endpoint_exists] is False exactly when [get_endpoint]
    raises KeyError; the two tests themselves never raise. *)
Theorem exists_agrees_with_lookup (c : cloud) (n : string) (sid : ident)
    (r : option string) (pu : string) (iu au : option string) :
  (exists b, fst (os_keystone_service.service_exists n c) = Ok b /\
             (b = false <->
              exists msg, fst (os_keystone_service.get_service n c)
                          = Raise (KeyError msg))) /\
  (exists b, fst (os_keystone_endpoint.endpoint_exists sid r pu iu au c) = Ok b /\
             (b = false <->
              exists msg, fst (os_keystone_endpoint.get_endpoint sid r pu iu au c)
                          = Raise (KeyError msg))).
Proof.
  split.
  - rewrite service_exists_run. eexists. split; [reflexivity|].
    destruct (s_named n (services c)) as [|a [|b k]] eqn:E.
    + rewrite (service_facts.get_service_none n c E).
      split; [intros _; eexists; reflexivity | reflexivity].
    + rewrite (service_facts.get_service_one n c a E).
      split; [discriminate | intros [msg H]; discriminate H].
    + rewrite service_facts.get_service_many by (rewrite E; simpl; lia).
      split; [discriminate | intros [msg H]; discriminate H].
  - rewrite endpoint_exists_run. eexists. split; [reflexivity|].
    destruct (e_matching sid r pu iu au (endpoints c)) as [|a [|b k]] eqn:E.
    + rewrite (get_endpoint_none sid r pu iu au c E).
      split; [intros _; eexists; reflexivity | reflexivity].
    + rewrite (get_endpoint_one sid r pu iu au c a E).
      split; [discriminate | intros [msg H]; discriminate H].
    + rewrite get_endpoint_many by (rewrite E; simpl; lia).
      split; [discriminate | intros [msg H]; discriminate H].
Qed.

(** X7: where two or more services carry the name given, both endpoint
    paths raise ValueError right after the one [services.list] call, in
    check mode as well, and no endpoint is listed, created or deleted. *)
Theorem endpoint_paths_ambiguous_service (c : cloud) (n : string) (r : option string)
    (pu : string) (iu au : option string) (cm : bool) :
  2 <= List.length (e_named n (services c)) ->
  exists msg,
    ensure_endpoint_exists n r pu iu au cm c
      = (Raise (ValueError msg), log ServicesList c) /\
    ensure_endpoint_absent n r pu iu au cm c
      = (Raise (ValueError msg), log ServicesList c).
Proof.
  intros H. eexists.
  apply endpoint_path_service_raises.
  apply resolve_service_many. exact H.
Qed.

Lemma endpoint_paths_ambiguous_service_witness :
  exists msg,
    ensure_endpoint_exists "glance" None "http://glance/" None None true samples.twice
      = (Raise (ValueError msg), log ServicesList samples.twice) /\
    ensure_endpoint_absent "glance" None "http://glance/" None None true samples.twice
      = (Raise (ValueError msg), log ServicesList samples.twice).
Proof.
  apply (endpoint_paths_ambiguous_service samples.twice "glance" None "http://glance/"
           None None true).
  simpl. lia.
Defined.

Lemma filter_fresh (A : Type) (f : A -> bool) (l : list A) :
  Forall (fun x => f x = true) l -> filter f l = l.
Proof.
  induction 1 as [|a l Ha _ IH]; simpl; [reflexivity|].
  rewrite Ha, IH. reflexivity.
Qed.

(** X8: from a catalogue with no service of that name, the present path
    followed by the absent path (check mode off) issues the delete for
    exactly the identifier the create returned; where that identifier is new
    to the catalogue, the list of services afterwards is the list before.
    The same holds for an endpoint of a service that resolves. *)
Theorem present_then_absent_round_trip :
  (forall (c : cloud) (n ty d : string),
     s_named n (services c) = [] ->
     let created := ensure_service_exists n ty d false c in
     let removed := ensure_service_absent n false (snd created) in
     fst created = Ok (true, Some (next_id c)) /\
     calls_since c (snd removed)
       = [ServicesList; ServicesCreate n ty d;
          ServicesList; ServicesList; ServicesDelete (next_id c)] /\
     (fresh_service_id c -> services (snd removed) = services c)) /\
  (forall (c : cloud) (n : string) (r : option string) (pu : string)
          (iu au : option string) (svc : service),
     e_named n (services c) = [svc] ->
     e_matching (s_id svc) r pu iu au (endpoints c) = [] ->
     let created := ensure_endpoint_exists n r pu iu au false c in
     let removed := ensure_endpoint_absent n r pu iu au false (snd created) in
     fst created = Ok (true, Some (next_id c)) /\
     calls_since c (snd removed)
       = [ServicesList; EndpointsList; EndpointsCreate (s_id svc) r pu iu au;
          ServicesList; EndpointsList; EndpointsList; EndpointsDelete (next_id c)] /\
     (fresh_endpoint_id c -> endpoints (snd removed) = endpoints c)).
Proof.
  split.
  - intros c n ty d E created removed.
    pose proof (ensure_service_exists_none_create n ty d c E) as Hc.
    fold created in Hc.
    assert (Hr : removed = ensure_service_absent n false (snd created)) by reflexivity.
    rewrite Hc in Hr. cbn [snd] in Hr.
    rewrite (ensure_service_absent_one_delete n _ (mkService (next_id c) n ty d)) in Hr
      by (cbn [services]; apply services_named_after_create; exact E).
    cbn [services endpoints next_id calls s_id] in Hr.
    rewrite Hr, Hc. cbn [fst snd]. split; [reflexivity|]. split.
    + unfold calls_since. cbn [calls]. rewrite <- app_assoc. apply skipn_length_app.
    + intros Hfresh. cbn [services].
      rewrite filter_app. simpl. rewrite Nat.eqb_refl. simpl. rewrite app_nil_r.
      apply filter_fresh. unfold fresh_service_id in Hfresh.
      eapply Forall_impl; [|exact Hfresh].
      intros x Hx. simpl in Hx. apply negb_true_iff, Nat.eqb_neq. exact Hx.
  - intros c n r pu iu au svc Hs E created removed.
    pose proof (ensure_endpoint_exists_none_create (s_id svc) r pu iu au n c svc
                  Hs eq_refl E) as Hc.
    fold created in Hc.
    assert (Hr : removed = ensure_endpoint_absent n r pu iu au false (snd created))
      by reflexivity.
    rewrite Hc in Hr. cbn [snd] in Hr.
    rewrite (ensure_endpoint_absent_one_delete (s_id svc) r pu iu au n _ svc
               (mkEndpoint (next_id c) (s_id svc) r pu iu au)) in Hr;
      [ | cbn [services]; exact Hs | reflexivity
        | cbn [endpoints]; apply endpoints_matching_after_create; exact E ].
    cbn [services endpoints next_id calls e_id] in Hr.
    rewrite Hr, Hc. cbn [fst snd]. split; [reflexivity|]. split.
    + unfold calls_since. cbn [calls]. rewrite <- app_assoc. apply skipn_length_app.
    + intros Hfresh. cbn [endpoints].
      rewrite filter_app. simpl. rewrite Nat.eqb_refl. simpl. rewrite app_nil_r.
      apply filter_fresh. unfold fresh_endpoint_id in Hfresh.
      eapply Forall_impl; [|exact Hfresh].
      intros x Hx. simpl in Hx. apply negb_true_iff, Nat.eqb_neq. exact Hx.
Qed.

Lemma present_then_absent_round_trip_witness :
  services (snd (ensure_service_absent "swift" false
                   (snd (ensure_service_exists "swift" "object-store" "Not provided"
                           false samples.single))))
    = services samples.single.
Proof.
  destruct present_then_absent_round_trip as [Hservice _].
  destruct (Hservice samples.single "swift" "object-store" "Not provided")
    as (_ & _ & Hround).
  - reflexivity.
  - apply Hround. unfold fresh_service_id. simpl.
    repeat constructor; discriminate.
Defined.


End Convergence.

(* ================================================================== *)
(** * Further properties of the heat module *)

Section Polling.
Import heat heat_facts.

Lemma terminal_found (operation status : string) :
  terminal operation (Found status) = true ->
  String.eqb (operation ++ "_COMPLETE") status = true \/
  (String.eqb (operation ++ "_COMPLETE") status = false /\
   String.eqb (operation ++ "_FAILED") status = true).
Proof.
  unfold terminal, pending. rewrite negb_true_iff, andb_false_iff, !negb_false_iff.
  destruct (String.eqb (operation ++ "_COMPLETE") status); [left; reflexivity|].
  intros [H|H]; [discriminate H | right; split; [reflexivity | exact H]].
Qed.

Lemma yes_in_repeat (pre : list string) :
  existsb (String.eqb "yes") (repeat "yes" (List.length pre)) =
  match pre with [] => false | _ => true end.
Proof. destruct pre; reflexivity. Qed.

(** Every script splits into non-terminal statuses followed by nothing or
    by a terminal answer, and the loop returns what [poll_outcome] says. *)
Lemma stack_operation_loop_decompose (heat : list lookup) (sn operation : string) :
  forall (existed : list string) (trace : list event),
  exists pre rest,
    heat = map Found pre ++ rest /\
    forallb (pending operation) pre = true /\
    match rest with [] => True | a :: _ => terminal operation a = true end /\
    stack_operation_loop heat sn operation existed trace
      = stack_operation_loop rest sn operation
          (existed ++ repeat "yes" (List.length pre)) (trace ++ rounds sn pre).
Proof.
  induction heat as [|a heat IH]; intros existed trace.
  - exists [], []. simpl. rewrite !app_nil_r. repeat split.
  - destruct a as [status|].
    + destruct (pending operation status) eqn:Hp.
      * destruct (IH (existed ++ ["yes"]) (trace ++ [Get sn; Sleep 5]))
          as (pre & rest & Hh & Hpre & Hrest & Hrun).
        exists (status :: pre), rest. split; [simpl; rewrite Hh; reflexivity|].
        split; [simpl; rewrite Hp; exact Hpre|]. split; [exact Hrest|].
        rewrite pending_step by exact Hp. rewrite Hrun.
        simpl. rewrite <- !app_assoc. reflexivity.
      * exists [], (Found status :: heat). simpl. rewrite !app_nil_r.
        repeat split. unfold terminal. rewrite Hp. reflexivity.
    + exists [], (LookupRaises :: heat). simpl. rewrite !app_nil_r. repeat split.
Qed.

Lemma stack_operation_decompose (heat : list lookup) (sn operation : string) :
  exists pre rest,
    heat = map Found pre ++ rest /\
    forallb (pending operation) pre = true /\
    match rest with [] => True | a :: _ => terminal operation a = true end /\
    stack_operation heat sn operation = poll_outcome sn operation pre rest.
Proof.
  destruct (stack_operation_loop_decompose heat sn operation [] [])
    as (pre & rest & Hh & Hpre & Hrest & Hrun).
  exists pre, rest. repeat split; try assumption.
  unfold stack_operation. rewrite Hrun. cbn [app].
  destruct rest as [|[status|] rest]; cbn [stack_operation_loop poll_outcome].
  - reflexivity.
  - destruct (terminal_found _ _ Hrest) as [Hc | [Hc Hf]]; rewrite Hc.
    + reflexivity.
    + rewrite Hf. reflexivity.
  - rewrite yes_in_repeat. destruct pre; reflexivity.
Qed.

Lemma sleeps_of_rounds (sn : string) (pre : list string) :
  sleeps (rounds sn pre) = repeat (Sleep 5) (List.length pre).
Proof.
  unfold sleeps. induction pre as [|st pre IH]; simpl; auto.
  rewrite IH. reflexivity.
Qed.

Lemma lookups_of_rounds (sn : string) (pre : list string) :
  lookups (rounds sn pre) = List.length pre.
Proof.
  unfold lookups. induction pre as [|st pre IH]; simpl; auto.
Qed.

Lemma pending_not_terminal (operation : string) (pre : list string) :
  forallb (pending operation) pre = true ->
  forallb (fun a => negb (terminal operation a)) (map Found pre) = true.
Proof.
  induction pre as [|st pre IH]; simpl; intros H; [reflexivity|].
  apply andb_true_iff in H. destruct H as [Hst Hpre].
  rewrite Hst, IH by exact Hpre. reflexivity.
Qed.

(** X10: the loop goes on polling exactly as long as the remote answers
    with statuses that are neither [<operation>_COMPLETE] nor
    [<operation>_FAILED]: on a script it fails to return if and only if no
    answer of the script is terminal, and it has then looked the stack up
    once and slept 5 once per answer.  The loop has no bound of its own. *)
Theorem polling_returns_iff_terminal_answer (heat : list lookup) (sn operation : string) :
  (fst (stack_operation heat sn operation) = None <->
   forallb (fun a => negb (terminal operation a)) heat = true) /\
  (fst (stack_operation heat sn operation) = None ->
   lookups (snd (stack_operation heat sn operation)) = List.length heat /\
   sleeps (snd (stack_operation heat sn operation))
     = repeat (Sleep 5) (List.length heat)).
Proof.
  destruct (stack_operation_decompose heat sn operation)
    as (pre & rest & Hh & Hpre & Hrest & Hrun).
  rewrite Hrun.
  destruct rest as [|a rest].
  - rewrite app_nil_r in Hh. subst heat. cbn [poll_outcome fst snd]. split.
    + split; [intros _; apply pending_not_terminal; exact Hpre | reflexivity].
    + intros _. rewrite length_map, lookups_of_rounds, sleeps_of_rounds.
      split; reflexivity.
  - assert (Hsome : fst (poll_outcome sn operation pre (a :: rest)) <> None).
    { destruct a; discriminate. }
    split.
    + split; [intros H; contradiction|].
      subst heat. rewrite forallb_app. cbn [forallb]. rewrite Hrest.
      cbn [negb andb]. rewrite andb_false_r. discriminate.
    + intros H. contradiction.
Qed.

Lemma polling_returns_iff_terminal_answer_witness :
  lookups (snd (stack_operation [Found "CREATE_IN_PROGRESS"; Found "ROLLBACK_COMPLETE"]
                  "ansible-heat" "CREATE")) = 2.
Proof.
  destruct (polling_returns_iff_terminal_answer
              [Found "CREATE_IN_PROGRESS"; Found "ROLLBACK_COMPLETE"]
              "ansible-heat" "CREATE") as [_ H].
  apply H. reflexivity.
Defined.

(** X11: once an answer is terminal nothing after it matters: a result the
    loop returns on a script is the result, with the same trace, on every
    extension of that script. *)
Theorem polling_ignores_answers_after_terminal (heat more : list lookup)
    (sn operation : string) (result : pydict) (trace : list event) :
  stack_operation heat sn operation = (Some result, trace) ->
  stack_operation (heat ++ more) sn operation = (Some result, trace).
Proof.
  unfold stack_operation. generalize (@nil string) as existed, (@nil event) as tr.
  induction heat as [|a heat IH]; intros existed tr H.
  - discriminate H.
  - destruct a as [status|]; cbn [app stack_operation_loop] in *.
    + destruct (String.eqb (operation ++ "_COMPLETE") status); [exact H|].
      destruct (String.eqb (operation ++ "_FAILED") status); [exact H|].
      apply IH. exact H.
    + exact H.
Qed.

Lemma polling_ignores_answers_after_terminal_witness :
  stack_operation ([Found "DELETE_IN_PROGRESS"; LookupRaises] ++ [Found "DELETE_FAILED"])
    "ansible-heat" "DELETE"
  = (Some stack_deleted, [Get "ansible-heat"; Sleep 5; Get "ansible-heat"]).
Proof.
  apply (polling_ignores_answers_after_terminal
           [Found "DELETE_IN_PROGRESS"; LookupRaises] [Found "DELETE_FAILED"]).
  reflexivity.
Defined.

Lemma rounds_repeat (sn : string) (pre : list string) :
  rounds sn pre = List.concat (repeat [Get sn; Sleep 5] (List.length pre)).
Proof.
  induction pre as [|st pre IH]; simpl; [reflexivity|].
  fold (rounds sn pre). rewrite IH. reflexivity.
Qed.

(** X12: whenever the loop returns, its trace is a lookup followed by a
    sleep of 5, repeated [k] times, and then one last lookup, where [k] is
    the number of answers before the terminal one: it sleeps exactly once
    between two lookups and never after the last, and it makes at most one
    lookup per answer of the script. *)
Theorem polling_trace_shape (heat : list lookup) (sn operation : string)
    (result : pydict) (trace : list event) :
  stack_operation heat sn operation = (Some result, trace) ->
  (exists k,
     k < List.length heat /\
     trace = List.concat (repeat [Get sn; Sleep 5] k) ++ [Get sn] /\
     forallb (fun a => negb (terminal operation a)) (firstn k heat) = true /\
     (exists a, nth_error heat k = Some a /\ terminal operation a = true)) /\
  1 <= lookups trace <= List.length heat /\
  sleeps trace = repeat (Sleep 5) (lookups trace - 1) /\
  last trace (Sleep 5) = Get sn.
Proof.
  destruct (stack_operation_decompose heat sn operation)
    as (pre & rest & Hh & Hpre & Hrest & Hrun).
  rewrite Hrun. intros H.
  assert (Ht : trace = rounds sn pre ++ [Get sn] /\ rest <> []).
  { destruct rest as [|[status|] rest]; cbn [poll_outcome] in H;
      [discriminate H | | ]; inversion H; split; (reflexivity || discriminate). }
  destruct Ht as [Ht Hne]. subst trace.
  destruct rest as [|a rest]; [congruence|].
  assert (Hlen : List.length (map Found pre) = List.length pre) by apply length_map.
  split.
  - exists (List.length pre). subst heat.
    rewrite length_app, Hlen. cbn [List.length].
    split; [lia|]. split; [rewrite rounds_repeat; reflexivity|]. split.
    + rewrite <- Hlen. rewrite firstn_app, firstn_all, Nat.sub_diag.
      cbn [firstn]. rewrite app_nil_r. apply pending_not_terminal. exact Hpre.
    + exists a. split; [|exact Hrest].
      rewrite <- Hlen. rewrite nth_error_app2 by lia.
      rewrite Nat.sub_diag. reflexivity.
  - rewrite lookups_rounds, sleeps_rounds, last_last.
    subst heat. rewrite length_app, Hlen. cbn [List.length].
    repeat split; try lia.
    replace (S (List.length pre) - 1) with (List.length pre) by lia. reflexivity.
Qed.

Lemma polling_trace_shape_witness :
  let trace := [Get "ansible-heat"; Sleep 5; Get "ansible-heat"; Sleep 5;
                Get "ansible-heat"] in
  (exists k,
     k < 4 /\
     trace = List.concat (repeat [Get "ansible-heat"; Sleep 5] k) ++ [Get "ansible-heat"] /\
     forallb (fun a => negb (terminal "CREATE" a))
       (firstn k [Found "PENDING"; Found "PENDING"; Found "CREATE_COMPLETE";
                  LookupRaises]) = true /\
     (exists a,
        nth_error [Found "PENDING"; Found "PENDING"; Found "CREATE_COMPLETE";
                   LookupRaises] k = Some a /\
        terminal "CREATE" a = true)) /\
  1 <= lookups trace <= 4 /\
  sleeps trace = repeat (Sleep 5) (lookups trace - 1) /\
  last trace (Sleep 5) = Get "ansible-heat".
Proof.
  apply (polling_trace_shape
           [Found "PENDING"; Found "PENDING"; Found "CREATE_COMPLETE"; LookupRaises]
           "ansible-heat" "CREATE" (stack_complete "CREATE")).
  reflexivity.
Defined.

(** X13: every result the loop returns is one of four dictionaries, each on
    the evidence of the script: the complete one only after a status
    [<operation>_COMPLETE], the failed one (the only one with a [failed]
    key) only after a status [<operation>_FAILED], 'Stack Deleted' only
    after a lookup raised that followed a successful one, and
    'Stack Not Found' only when the very first lookup raised. *)
Theorem polling_result_has_evidence (heat : list lookup) (sn operation : string)
    (result : pydict) :
  fst (stack_operation heat sn operation) = Some result ->
  (result = stack_complete operation /\ In (Found (operation ++ "_COMPLETE")) heat) \/
  (result = stack_failed operation /\ In (Found (operation ++ "_FAILED")) heat) \/
  (result = stack_deleted /\
   exists status rest, heat = Found status :: rest /\ In LookupRaises rest) \/
  (result = stack_not_found /\ exists rest, heat = LookupRaises :: rest).
Proof.
  destruct (stack_operation_decompose heat sn operation)
    as (pre & rest & Hh & Hpre & Hrest & Hrun).
  rewrite Hrun. intros H.
  destruct rest as [|[status|] rest]; cbn [poll_outcome fst] in H.
  - discriminate H.
  - inversion H; subst result heat; clear H.
    destruct (terminal_found _ _ Hrest) as [Hc | [Hc Hf]]; rewrite Hc.
    + left. split; [reflexivity|].
      apply String.eqb_eq in Hc. rewrite Hc.
      apply in_or_app. right. left. reflexivity.
    + right. left. split; [reflexivity|].
      apply String.eqb_eq in Hf. rewrite Hf.
      apply in_or_app. right. left. reflexivity.
  - inversion H; subst result heat; clear H.
    destruct pre as [|st pre].
    + right. right. right. split; [reflexivity|]. exists rest. reflexivity.
    + right. right. left. split; [reflexivity|].
      exists st, (map Found pre ++ LookupRaises :: rest). split; [reflexivity|].
      apply in_or_app. right. left. reflexivity.
Qed.

Lemma polling_result_has_evidence_witness :
  let heat := [Found "DELETE_IN_PROGRESS"; LookupRaises] in
  (stack_deleted = stack_complete "DELETE" /\ In (Found "DELETE_COMPLETE") heat) \/
  (stack_deleted = stack_failed "DELETE" /\ In (Found "DELETE_FAILED") heat) \/
  (stack_deleted = stack_deleted /\
   exists status rest, heat = Found status :: rest /\ In LookupRaises rest) \/
  (stack_deleted = stack_not_found /\ exists rest, heat = LookupRaises :: rest).
Proof.
  apply (polling_result_has_evidence [Found "DELETE_IN_PROGRESS"; LookupRaises]
           "ansible-heat" "DELETE" stack_deleted).
  reflexivity.
Defined.

End Polling.

Section Statuses.
Import heat heat_facts.

Lemma list_ascii_of_append (a b : string) :
  list_ascii_of_string (a ++ b) = list_ascii_of_string a ++ list_ascii_of_string b.
Proof. induction a as [|ch a IH]; simpl; congruence. Qed.

Lemma list_ascii_of_string_inj (a b : string) :
  list_ascii_of_string a = list_ascii_of_string b -> a = b.
Proof.
  intros H. apply (f_equal string_of_list_ascii) in H.
  rewrite !string_of_list_ascii_of_string in H. exact H.
Qed.

Lemma append_cancel_r (a b s : string) : (a ++ s)%string = (b ++ s)%string -> a = b.
Proof.
  intros H. apply list_ascii_of_string_inj.
  apply (f_equal list_ascii_of_string) in H.
  rewrite !list_ascii_of_append in H.
  apply app_inv_tail in H. exact H.
Qed.

Lemma complete_never_failed (a b : string) :
  (a ++ "_COMPLETE")%string <> (b ++ "_FAILED")%string.
Proof.
  intros H. apply (f_equal list_ascii_of_string) in H.
  rewrite !list_ascii_of_append in H.
  change (list_ascii_of_string "_COMPLETE")
    with (list_ascii_of_string "_COMPLET" ++ ["E"%char]) in H.
  change (list_ascii_of_string "_FAILED")
    with (list_ascii_of_string "_FAILE" ++ ["D"%char]) in H.
  rewrite !app_assoc in H. apply app_inj_tail in H.
  destruct H as [_ H]. discriminate H.
Qed.

(** X14: the statuses that end the loop are those of the operation polled
    for and no other: [<other>_COMPLETE] and [<other>_FAILED] of a different
    operation (ROLLBACK_COMPLETE while polling for CREATE, say) count as
    still pending, and a remote that keeps answering with one never makes
    the loop return. *)
Theorem status_of_other_operation_is_pending (operation other sn : string) (n : nat) :
  other <> operation ->
  pending operation (other ++ "_COMPLETE") = true /\
  pending operation (other ++ "_FAILED") = true /\
  stack_operation (repeat (Found (other ++ "_COMPLETE")) n) sn operation
    = (None, rounds sn (repeat (other ++ "_COMPLETE")%string n)).
Proof.
  intros Hne.
  assert (Hc : pending operation (other ++ "_COMPLETE") = true).
  { unfold pending. apply andb_true_iff. split; apply negb_true_iff, String.eqb_neq.
    - intros H. apply append_cancel_r in H. congruence.
    - intros H. symmetry in H. exact (complete_never_failed _ _ H). }
  assert (Hf : pending operation (other ++ "_FAILED") = true).
  { unfold pending. apply andb_true_iff. split; apply negb_true_iff, String.eqb_neq.
    - exact (complete_never_failed _ _).
    - intros H. apply append_cancel_r in H. congruence. }
  split; [exact Hc|]. split; [exact Hf|].
  unfold stack_operation.
  replace (repeat (Found (other ++ "_COMPLETE")) n)
    with (map Found (repeat (other ++ "_COMPLETE")%string n) ++ []).
  - rewrite pending_rounds.
    + reflexivity.
    + clear - Hc. induction n as [|n IH]; simpl; [reflexivity|].
      rewrite Hc, IH. reflexivity.
  - rewrite app_nil_r. clear. induction n as [|n IH]; simpl; congruence.
Qed.

Lemma status_of_other_operation_is_pending_witness :
  stack_operation (repeat (Found "ROLLBACK_COMPLETE") 3) "ansible-heat" "CREATE"
    = (None, rounds "ansible-heat" (repeat "ROLLBACK_COMPLETE" 3)).
Proof.
  apply (status_of_other_operation_is_pending "CREATE" "ROLLBACK" "ansible-heat" 3).
  discriminate.
Defined.

(** X15: the credentials message is printed exactly when one of the four
    variables is set to the empty string; a variable that is not set at all
    is not detected, and [main] then runs with None in its place. *)
Theorem credentials_message_iff_empty_string (imports_ok : bool) (env : environ) :
  let credentials := [getenv env "OS_USERNAME"; getenv env "OS_PASSWORD";
                      getenv env "OS_TENANT_NAME"; getenv env "OS_AUTH_URL"] in
  (In (Print credentials_message) (run_module imports_ok env) <->
   In (Some "") credentials) /\
  (Forall (fun v => v = None) credentials ->
   run_module true env = [Main None None None None]).
Proof.
  intros credentials. split.
  - unfold run_module. fold credentials.
    destruct (existsb (opt_string_eqb (Some "")) credentials) eqn:E.
    + split.
      * intros _. apply existsb_exists in E. destruct E as (v & Hin & Hv).
        apply opt_string_eqb_eq in Hv. subst v. exact Hin.
      * intros _. apply in_or_app. right. left. reflexivity.
    + split.
      * intros H. apply in_app_or in H. destruct H as [H|H].
        -- destruct imports_ok; [contradiction|].
           destruct H as [H|[]]. discriminate H.
        -- destruct H as [H|[]]. discriminate H.
      * intros H. assert (E' : existsb (opt_string_eqb (Some "")) credentials = true).
        { apply existsb_exists. exists (Some ""). split; [exact H|].
          apply opt_string_eqb_eq. reflexivity. }
        congruence.
  - intros H. unfold credentials in H.
    inversion H as [|? ? Hu H1]; subst. inversion H1 as [|? ? Hp H2]; subst.
    inversion H2 as [|? ? Ht H3]; subst. inversion H3 as [|? ? Ha _]; subst.
    unfold run_module. rewrite Hu, Hp, Ht, Ha. reflexivity.
Qed.

Lemma credentials_message_iff_empty_string_witness :
  run_module true [("HOME", "/root")] = [Main None None None None].
Proof.
  apply (credentials_message_iff_empty_string true [("HOME", "/root")]).
  repeat constructor.
Defined.

End Statuses.

Section HeatMain.
Import heat heat_facts heat_main.

Variables (username password tenant_name auth_url : option string).
Variables (p : params) (x : externals).

Local Abbreviation setup := (setup_steps username password tenant_name auth_url p).

Lemma main_after_setup (body tok ten : string) :
  read_template x = Ok body ->
  imports_ok x = true ->
  keystone_auth x = Ok (tok, ten) ->
  heat_client x = Ok tt ->
  main username password tenant_name auth_url p x =
    then_steps (setup tok ten)
      (if String.eqb (action p) "create" then
         then_steps (snd (submit_create p x body))
           match fst (submit_create p x body) with
           | Raise err => (fail_json_msg err, [])
           | Ok _ => report (stack_operation (answers x) (stack_name p) "CREATE")
           end
       else if String.eqb (action p) "delete" then
         then_steps [StacksDelete (stack_name p)]
           match stacks_delete x with
           | Raise e => (uncaught e, [])
           | Ok _ => report (stack_operation (answers x) (stack_name p) "DELETE")
           end
       else (exit_json_result [], [])).
Proof.
  intros Hread Himp Hks Hheat. unfold main.
  rewrite Hread, Himp, Hks, Hheat. cbn [negb].
  destruct (submit_create p x body) as [submitted steps].
  unfold then_steps. cbn [fst snd].
  destruct (String.eqb (action p) "create"); [|reflexivity].
  cbn [app]. reflexivity.
Qed.

(** X16: once the heat client exists, a create submission that raises
    (from the call, or from an argument name that is not bound) ends in
    [fail_json(msg=err)] and the stack is never polled; where
    [stack_policy_body] is not bound the create call itself is never made.
    A delete submission that raises is caught by nothing. *)
Theorem submission_failures (body tok ten : string) :
  read_template x = Ok body ->
  imports_ok x = true ->
  keystone_auth x = Ok (tok, ten) ->
  heat_client x = Ok tt ->
  let run := main username password tenant_name auth_url p x in
  (action p = "create" ->
   forall err, fst (submit_create p x body) = Raise err ->
     run = (fail_json_msg err, setup tok ten ++ snd (submit_create p x body)) /\
     forallb (fun s => negb (is_poll s)) (snd run) = true) /\
  (action p = "create" ->
   stack_policy_body_defined x = false ->
     run = (fail_json_msg (name_error "stack_policy_body"), setup tok ten)) /\
  (action p = "delete" ->
   forall e, stacks_delete x = Raise e ->
     run = (uncaught e, setup tok ten ++ [StacksDelete (stack_name p)])).
Proof.
  intros Hread Himp Hks Hheat run.
  pose proof (main_after_setup body tok ten Hread Himp Hks Hheat) as Hmain.
  fold run in Hmain.
  assert (Hcreate : action p = "create" ->
            forall err, fst (submit_create p x body) = Raise err ->
            run = (fail_json_msg err, setup tok ten ++ snd (submit_create p x body))).
  { intros Hact err Herr. rewrite Hmain, Hact, Herr.
    unfold then_steps. cbn [String.eqb Ascii.eqb Bool.eqb fst snd].
    rewrite app_nil_r. reflexivity. }
  split; [|split].
  - intros Hact err Herr. split; [exact (Hcreate Hact err Herr)|].
    rewrite (Hcreate Hact err Herr). cbn [snd].
    unfold submit_create in *.
    destruct (negb (stack_policy_body_defined x)); [reflexivity|].
    destruct (negb (disable_rollback_defined x)); reflexivity.
  - intros Hact Hundef.
    assert (Hs : submit_create p x body = (Raise (name_error "stack_policy_body"), [])).
    { unfold submit_create. rewrite Hundef. reflexivity. }
    rewrite (Hcreate Hact (name_error "stack_policy_body")) by (rewrite Hs; reflexivity).
    rewrite Hs. cbn [snd]. rewrite app_nil_r. reflexivity.
  - intros Hact e He. rewrite Hmain, Hact, He.
    unfold then_steps. cbn [String.eqb Ascii.eqb Bool.eqb fst snd]. reflexivity.
Qed.

(** X17: after a submission that succeeded, [main] hands the dictionary
    [stack_operation] returned to [exit_json], whatever it holds: a stack
    that ended in [<operation>_FAILED] is reported through [exit_json] with
    failed=True among its arguments, and the steps are the set-up, the one
    submission and the polls, in that order. *)
Theorem main_reports_polling_result (body tok ten : string) :
  read_template x = Ok body ->
  imports_ok x = true ->
  keystone_auth x = Ok (tok, ten) ->
  heat_client x = Ok tt ->
  let run := main username password tenant_name auth_url p x in
  (action p = "create" ->
   fst (submit_create p x body) = Ok tt ->
   let polled := stack_operation (answers x) (stack_name p) "CREATE" in
   snd run = setup tok ten ++
             [StacksCreate (stack_name p) (template_parameters p) body (tags p)] ++
             map Poll (snd polled) /\
   (forall result, fst polled = Some result -> fst run = exit_json_result result) /\
   (fst polled = None -> fst run = still_polling)) /\
  (action p = "delete" ->
   stacks_delete x = Ok tt ->
   let polled := stack_operation (answers x) (stack_name p) "DELETE" in
   snd run = setup tok ten ++ [StacksDelete (stack_name p)] ++ map Poll (snd polled) /\
   (forall result, fst polled = Some result -> fst run = exit_json_result result) /\
   (fst polled = None -> fst run = still_polling)).
Proof.
  intros Hread Himp Hks Hheat run.
  pose proof (main_after_setup body tok ten Hread Himp Hks Hheat) as Hmain.
  fold run in Hmain.
  split.
  - intros Hact Hsub polled.
    assert (Hsteps : snd (submit_create p x body)
                     = [StacksCreate (stack_name p) (template_parameters p) body (tags p)]).
    { unfold submit_create in *.
      destruct (negb (stack_policy_body_defined x)); [discriminate Hsub|].
      destruct (negb (disable_rollback_defined x)); [discriminate Hsub|].
      reflexivity. }
    rewrite Hmain, Hact, Hsub, Hsteps. fold polled.
    unfold then_steps, report. cbn [String.eqb Ascii.eqb Bool.eqb fst snd].
    split; [reflexivity|]. split.
    + intros result Hr. rewrite Hr. reflexivity.
    + intros Hr. rewrite Hr. reflexivity.
  - intros Hact Hdel polled.
    rewrite Hmain, Hact, Hdel. fold polled.
    unfold then_steps, report. cbn [String.eqb Ascii.eqb Bool.eqb fst snd].
    split; [reflexivity|]. split.
    + intros result Hr. rewrite Hr. reflexivity.
    + intros Hr. rewrite Hr. reflexivity.
Qed.

(** X18: [main] calls [fail_json] in one situation only: the action is
    create and the submission raised.  No answer met while polling and no
    failure of a delete leads there. *)
Theorem fail_json_only_from_create_submission (err : exn) :
  fst (main username password tenant_name auth_url p x) = fail_json_msg err ->
  action p = "create" /\
  exists body, read_template x = Ok body /\ fst (submit_create p x body) = Raise err.
Proof.
  unfold main, then_steps. cbn [fst].
  destruct (read_template x) as [body|e]; [|discriminate].
  destruct (negb (imports_ok x)); [discriminate|]. cbn [fst].
  destruct (keystone_auth x) as [[tok ten]|e]; [|discriminate]. cbn [fst].
  destruct (heat_client x) as [u|e]; [|discriminate].
  destruct (String.eqb (action p) "create") eqn:Hact.
  - destruct (submit_create p x body) as [[u'|err'] steps] eqn:Hsub; cbn [fst].
    + unfold report. cbn [fst].
      destruct (fst (stack_operation (answers x) (stack_name p) "CREATE")); discriminate.
    + intros H. inversion H; subst. split; [apply String.eqb_eq; exact Hact|].
      exists body. split; [reflexivity | rewrite Hsub; reflexivity].
  - destruct (String.eqb (action p) "delete"); cbn [fst]; [|discriminate].
    destruct (stacks_delete x) as [u'|e']; cbn [fst]; [|discriminate].
    unfold report. cbn [fst].
    destruct (fst (stack_operation (answers x) (stack_name p) "DELETE")); discriminate.
Qed.

(** X19: [main] opens the template before anything else, and it takes no
    step that involves heat (client, submission or poll) unless the
    template was read, [ksclient] is bound and keystone answered; the heat
    client is then built on the address [auth_url/tenant id] with the
    token keystone gave. *)
Theorem heat_steps_need_authentication :
  (exists rest,
     snd (main username password tenant_name auth_url p x)
       = OpenTemplate (template p) :: rest) /\
  (forall s,
     In s (snd (main username password tenant_name auth_url p x)) ->
     is_heat_step s = true ->
     exists body tok ten,
       read_template x = Ok body /\ imports_ok x = true /\
       keystone_auth x = Ok (tok, ten) /\
       In (HeatClient (fmt_s auth_url ++ "/" ++ ten) tok)
          (snd (main username password tenant_name auth_url p x))).
Proof.
  split.
  - unfold main, then_steps. cbn [snd app]. eexists. reflexivity.
  - intros s Hin Hheat. unfold main, then_steps in *. cbn [snd] in *.
    destruct (read_template x) as [body|e].
    + destruct (imports_ok x); cbn [negb snd app] in *.
      * destruct (keystone_auth x) as [[tok ten]|e]; cbn [snd app] in *.
        -- exists body, tok, ten. repeat split. right. right. left. reflexivity.
        -- destruct Hin as [H|[H|[]]]; subst s; discriminate Hheat.
      * destruct Hin as [H|[]]; subst s; discriminate Hheat.
    + cbn [snd app] in Hin. destruct Hin as [H|[]]; subst s; discriminate Hheat.
Qed.

(** X20: the credentials keystone receives are the four environment values
    as read, set or not: where the template can be read and the imports
    succeeded, the second step of a run is the construction of the keystone
    client on them, and this is so also when the credentials message was
    printed because one of them is empty. *)
Theorem environment_credentials_reach_keystone (env : environ) (body : string) :
  read_template x = Ok body ->
  imports_ok x = true ->
  (exists rest,
     snd (snd (run env p x))
       = OpenTemplate (template p)
         :: KeystoneClient (getenv env "OS_USERNAME") (getenv env "OS_PASSWORD")
              (getenv env "OS_TENANT_NAME") (getenv env "OS_AUTH_URL")
         :: rest) /\
  (In (Some "") [getenv env "OS_USERNAME"; getenv env "OS_PASSWORD";
                 getenv env "OS_TENANT_NAME"; getenv env "OS_AUTH_URL"] ->
   fst (run env p x) = [credentials_message]).
Proof.
  intros Hread Himp. split.
  - unfold run, main, then_steps. cbn [snd]. rewrite Hread, Himp.
    cbn [negb snd app]. eexists. reflexivity.
  - intros Hempty. unfold run. cbn [fst]. rewrite Himp. unfold run_module.
    assert (E : existsb (opt_string_eqb (Some ""))
                  [getenv env "OS_USERNAME"; getenv env "OS_PASSWORD";
                   getenv env "OS_TENANT_NAME"; getenv env "OS_AUTH_URL"] = true).
    { apply existsb_exists. exists (Some ""). split; [exact Hempty|].
      apply opt_string_eqb_eq. reflexivity. }
    rewrite E. reflexivity.
Qed.

End HeatMain.

Section HeatMainWitnesses.
Import heat heat_facts heat_main.

Lemma submission_failures_witness :
  main None None None None heat_samples.create_stack
       (heat_samples.unbound_names [Found "CREATE_COMPLETE"])
    = (fail_json_msg (name_error "stack_policy_body"),
       [OpenTemplate "files/heat-example.json"; KeystoneClient None None None None;
        HeatClient "None/tenant" "token"]).
Proof.
  apply (submission_failures None None None None heat_samples.create_stack
           (heat_samples.unbound_names [Found "CREATE_COMPLETE"]) "{}" "token" "tenant");
    reflexivity.
Defined.

Lemma main_reports_polling_result_witness :
  fst (main None None None None heat_samples.create_stack
         (heat_samples.answering [Found "CREATE_IN_PROGRESS"; Found "CREATE_FAILED"]))
    = exit_json_result (stack_failed "CREATE").
Proof.
  destruct (main_reports_polling_result None None None None heat_samples.create_stack
              (heat_samples.answering [Found "CREATE_IN_PROGRESS"; Found "CREATE_FAILED"])
              "{}" "token" "tenant" eq_refl eq_refl eq_refl eq_refl) as [Hcreate _].
  destruct (Hcreate eq_refl eq_refl) as (_ & Hresult & _).
  apply Hresult. reflexivity.
Defined.

Lemma fail_json_only_from_create_submission_witness :
  action heat_samples.create_stack = "create" /\
  exists body,
    read_template heat_samples.rejecting = Ok body /\
    fst (submit_create heat_samples.create_stack heat_samples.rejecting body)
      = Raise (OtherException "HTTPBadRequest").
Proof.
  apply (fail_json_only_from_create_submission None None None None
           heat_samples.create_stack heat_samples.rejecting).
  reflexivity.
Defined.

Lemma environment_credentials_reach_keystone_witness :
  fst (run samples.env_empty_username heat_samples.delete_stack
         (heat_samples.answering [LookupRaises]))
    = [credentials_message].
Proof.
  apply (environment_credentials_reach_keystone heat_samples.delete_stack
           (heat_samples.answering [LookupRaises]) samples.env_empty_username "{}").
  - reflexivity.
  - reflexivity.
  - simpl. left. reflexivity.
Defined.

End HeatMainWitnesses.

Lemma heat_steps_need_authentication_witness :
  exists body tok ten,
    heat_main.read_template (heat_samples.answering [heat.LookupRaises]) = Ok body /\
    heat_main.imports_ok (heat_samples.answering [heat.LookupRaises]) = true /\
    heat_main.keystone_auth (heat_samples.answering [heat.LookupRaises]) = Ok (tok, ten) /\
    In (heat_main.HeatClient (fmt_s (Some "http://keystone:5000/v2.0") ++ "/" ++ ten) tok)
       (snd (heat_main.main (Some "admin") (Some "secret") (Some "demo")
               (Some "http://keystone:5000/v2.0") heat_samples.delete_stack
               (heat_samples.answering [heat.LookupRaises]))).
Proof.
  destruct (heat_steps_need_authentication (Some "admin") (Some "secret") (Some "demo")
              (Some "http://keystone:5000/v2.0") heat_samples.delete_stack
              (heat_samples.answering [heat.LookupRaises])) as [_ H].
  apply (H (heat_main.Poll (heat.Get "ansible-heat"))).
  - simpl. do 4 right. left. reflexivity.
  - reflexivity.
Defined.

(* ================================================================== *)
(** * Lookups *)

Section Lookups.
Import service_facts endpoint_facts.

(** X21: a lookup that returns hands back a resource of the catalogue that
    carries the attributes asked for and is the only one that does; it has
    issued its one list call and changed nothing.  [get_service_id] returns
    that service's identifier. *)
Theorem lookups_are_sound :
  (forall (c c' : cloud) (n : string) (s : service),
     os_keystone_service.get_service n c = (Ok s, c') ->
     In s (services c) /\ s_name s = n /\
     (forall s', In s' (services c) -> s_name s' = n -> s' = s) /\
     c' = log ServicesList c /\
     os_keystone_service.get_service_id n c = (Ok (s_id s), c')) /\
  (forall (c c' : cloud) (sid : ident) (r : option string) (pu : string)
          (iu au : option string) (e : endpoint),
     os_keystone_endpoint.get_endpoint sid r pu iu au c = (Ok e, c') ->
     In e (endpoints c) /\
     (e_service_id e = sid /\ e_region e = r /\ e_publicurl e = pu /\
      e_internalurl e = iu /\ e_adminurl e = au) /\
     (forall e', In e' (endpoints c) ->
                 os_keystone_endpoint.endpoint_match e' sid r pu iu au = true -> e' = e) /\
     c' = log EndpointsList c).
Proof.
  split.
  - intros c c' n s H.
    assert (E : os_keystone_service.services_named n (services c) = [s] /\
                c' = log ServicesList c).
    { destruct (os_keystone_service.services_named n (services c)) as [|a [|b k]] eqn:E.
      - rewrite (service_facts.get_service_none n c E) in H. discriminate H.
      - rewrite (service_facts.get_service_one n c a E) in H.
        inversion H; subst. split; reflexivity.
      - rewrite service_facts.get_service_many in H by (rewrite E; simpl; lia).
        discriminate H. }
    destruct E as [E Hc'].
    assert (Hin : forall s', In s' (services c) /\ s_name s' = n <-> s' = s).
    { intros s'. rewrite <- services_named_In, E. simpl. intuition congruence. }
    destruct (proj2 (Hin s) eq_refl) as [Hs Hn].
    split; [exact Hs|]. split; [exact Hn|].
    split; [intros s' H1 H2; apply Hin; split; assumption|].
    split; [exact Hc'|].
    unfold os_keystone_service.get_service_id, bind. rewrite H. reflexivity.
  - intros c c' sid r pu iu au e H.
    assert (E : os_keystone_endpoint.endpoints_matching sid r pu iu au (endpoints c) = [e]
                /\ c' = log EndpointsList c).
    { destruct (os_keystone_endpoint.endpoints_matching sid r pu iu au (endpoints c))
        as [|a [|b k]] eqn:E.
      - rewrite (get_endpoint_none sid r pu iu au c E) in H. discriminate H.
      - rewrite (get_endpoint_one sid r pu iu au c a E) in H.
        inversion H; subst. split; reflexivity.
      - rewrite get_endpoint_many in H by (rewrite E; simpl; lia).
        discriminate H. }
    destruct E as [E Hc'].
    assert (Hin : forall e', In e' (endpoints c) /\
                    os_keystone_endpoint.endpoint_match e' sid r pu iu au = true
                    <-> e' = e).
    { intros e'. unfold os_keystone_endpoint.endpoints_matching in E.
      pose proof (filter_In
                    (fun y => os_keystone_endpoint.endpoint_match y sid r pu iu au)
                    e' (endpoints c)) as F.
      rewrite E in F. cbn [In] in F. cbv beta in F.
      split.
      - intros H'. apply F in H'. destruct H' as [H'|[]]. symmetry. exact H'.
      - intros H'. apply F. left. symmetry. exact H'. }
    destruct (proj2 (Hin e) eq_refl) as [He Hm].
    split; [exact He|]. split; [apply endpoint_match_iff; exact Hm|].
    split; [intros e' H1 H2; apply Hin; split; assumption | exact Hc'].
Qed.

Lemma lookups_are_sound_witness :
  os_keystone_service.get_service_id "nova" samples.single
    = (Ok 3, log ServicesList samples.single).
Proof.
  destruct lookups_are_sound as [Hservice _].
  apply (Hservice samples.single (log ServicesList samples.single) "nova" samples.nova).
  reflexivity.
Defined.

End Lookups.
